(** * Earthquake Visualizer: feed-to-view synchronisation

    A shallow embedding of the [MapView] React component of the
    Earthquake Visualizer and of the fragment of JavaScript and React it
    relies on.  The repository carries the component in several variants:

    - [src/components/MapView.jsx], the one [App.jsx] imports;
    - the first file of [unnamed/part_001] (lines 1-208), whose logic
      differs from it in two places: the list click handler collapses the
      sidebar only when [window.innerWidth < 768], and an empty collection
      renders a notice instead of the main layout;
    - the second file of [unnamed/part_001] (lines 209-394), which has the
      same fetch, colour and selection code, the notice for an empty
      collection, and no sidebar state at all.

    The three are modelled side by side through [variant]; the third
    never reads or writes the sidebar slot of the state. *)

From Stdlib Require Import List ZArith QArith Qround Bool String Lia Lqa.
From Stdlib Require Import Permutation Sorted DecimalString.
Import ListNotations.

Local Open Scope Z_scope.

(** ** The JavaScript fragment the component uses *)

Module JS.

(** A Number: the exact rational value of a finite double, or one of the
    three special values.  Comparison of doubles is comparison of these
    values, and so is the rounding of [toFixed]. *)
Inductive number : Type :=
| NaN
| PosInfinity
| NegInfinity
| Finite (q : Q).

(** What the feed can put in [properties.mag]: a JSON number, JSON
    [null], or nothing at all (the property is absent). *)
Inductive value : Type :=
| Null
| Undefined
| Num (x : number).

Inductive exn : Type :=
| TypeError
| SyntaxError
| Error (msg : string).

(** A completion: a value or a thrown exception. *)
Inductive result (A : Type) : Type :=
| Ok (a : A)
| Throw (e : exn).
Arguments Ok {A} a.
Arguments Throw {A} e.

Definition bind {A B} (r : result A) (k : A -> result B) : result B :=
  match r with
  | Ok a => k a
  | Throw e => Throw e
  end.

Fixpoint mapM {A B} (f : A -> result B) (l : list A) : result (list B) :=
  match l with
  | [] => Ok []
  | x :: l' =>
      bind (f x) (fun y => bind (mapM f l') (fun ys => Ok (y :: ys)))
  end.

(** ToNumber on the values above. *)
Definition ToNumber (v : value) : number :=
  match v with
  | Null => Finite 0
  | Undefined => NaN
  | Num x => x
  end.

(** IsLessThan on Numbers; [None] is the "undefined" answer that a NaN
    operand gives. *)
Definition lessThan (x y : number) : option bool :=
  match x, y with
  | NaN, _ | _, NaN => None
  | PosInfinity, _ => Some false
  | _, PosInfinity => Some true
  | _, NegInfinity => Some false
  | NegInfinity, _ => Some true
  | Finite p, Finite q => Some (negb (Qle_bool q p))
  end.

(** [a >= b]: false when the comparison is undefined or [a < b]. *)
Definition ge (a b : value) : bool :=
  match lessThan (ToNumber a) (ToNumber b) with
  | Some false => true
  | _ => false
  end.

(** The text a Number prints as.  [Chars] is the literal text;
    [Exponent] stands for Number::toString of a finite value of
    magnitude 10^21 or more, whose digits depend on the binary64
    neighbours of the value and are not computed here. *)
Inductive text : Type :=
| Chars (s : string)
| Exponent (negative : bool) (x : Q).

Definition digits (n : Z) : string :=
  NilZero.string_of_uint (N.to_uint (Z.to_N n)).

(** Number.prototype.toFixed(1) on a Number. *)
Definition toFixed1 (x : number) : text :=
  match x with
  | NaN => Chars "NaN"
  | PosInfinity => Chars "Infinity"
  | NegInfinity => Chars "-Infinity"
  | Finite q =>
      let negative := negb (Qle_bool 0 q) in
      let a := if negative then Qopp q else q in
      if Qle_bool (inject_Z (10 ^ 21)) a then Exponent negative a
      else
        (* the integer n with n/10 closest to a, the larger of two *)
        let n := Qfloor (a * inject_Z 10 + (1 # 2)) in
        Chars ((if negative then "-" else "")
               ++ digits (n / 10) ++ "." ++ digits (n mod 10))%string
  end.

(** [v.toFixed(1)]: reading a property of [null] or [undefined] throws. *)
Definition toFixed (v : value) : result text :=
  match v with
  | Null | Undefined => Throw TypeError
  | Num x => Ok (toFixed1 x)
  end.

(** Array.prototype.slice(start, end) *)
Definition relativeIndex (len k : Z) : Z :=
  if k <? 0 then Z.max (len + k) 0 else Z.min k len.

Definition slice {A} (start end_ : Z) (l : list A) : list A :=
  let len := Z.of_nat (List.length l) in
  let k := relativeIndex len start in
  let final := relativeIndex len end_ in
  firstn (Z.to_nat (final - k)) (skipn (Z.to_nat k) l).

(** Array.prototype.sort(comparefn).  The language fixes the result for a
    consistent comparator: the elements in comparator order, equal ones
    in their original order (the sort is stable).  Insertion from the
    right computes that result: [x] moves past [y] only when
    [comparefn(x, y) > 0]. *)
Section Sort.
Context {A : Type} (comparefn : A -> A -> Z).

Fixpoint insert (x : A) (l : list A) : list A :=
  match l with
  | [] => [x]
  | y :: l' => if 0 <? comparefn x y then y :: insert x l' else x :: l
  end.

Fixpoint sort (l : list A) : list A :=
  match l with
  | [] => []
  | x :: l' => insert x (sort l')
  end.
End Sort.

End JS.

Import JS.

(** ** The feed *)

(** One element of [features], as the feed's schema has it: an [id], a
    [geometry] whose [coordinates] start with two numbers, and
    [properties].  [time] is the event's epoch-millisecond timestamp, an
    integer the doubles subtract exactly.  A feature whose [geometry] or
    [properties] is null, on which the destructuring of MapView.jsx
    lines 108-109 and 170-171 throws, has no term of this type: what
    follows is about feeds that keep the schema. *)
Record properties : Type := {
  mag : value;
  place : string;
  time : Z
}.

Record feature : Type := {
  fid : string;                 (* [id] *)
  coordinates : Q * Q;          (* [geometry.coordinates]: longitude, latitude *)
  props : properties            (* [properties] *)
}.

(** ** Colours *)

Inductive color : Type := red | orange | yellow | green.

Inductive textColor : Type := text_red_600 | text_orange_500 | text_green_600.

Definition six : value := Num (Finite 6).
Definition four : value := Num (Finite 4).
Definition two : value := Num (Finite 2).

(** The marker colour (MapView.jsx lines 174-175). *)
Definition markerColor (m : value) : color :=
  if ge m six then red
  else if ge m four then orange
  else if ge m two then yellow
  else green.

(** The colour of a list entry (MapView.jsx lines 111-116). *)
Definition listColor (m : value) : textColor :=
  if ge m six then text_red_600
  else if ge m four then text_orange_500
  else text_green_600.

(** The tiers of the legend (MapView.jsx lines 136-153): red is 6.0 and
    above, orange 4.0-5.9, yellow 2.0-3.9, green below 2.0. *)
Inductive severityTier : Type := minor | light | moderate | severe.

Definition tierOfColor (c : color) : severityTier :=
  match c with
  | red => severe
  | orange => moderate
  | yellow => light
  | green => minor
  end.

Definition tierOfTextColor (c : textColor) : severityTier :=
  match c with
  | text_red_600 => severe
  | text_orange_500 => moderate
  | text_green_600 => minor
  end.

Definition classify (m : value) : severityTier := tierOfColor (markerColor m).

(** ** The component state *)

Inductive variant : Type :=
| Components      (* src/components/MapView.jsx *)
| Responsive      (* unnamed/part_001, lines 1-208 *)
| Plain.          (* unnamed/part_001, lines 209-394 *)

(** The array [[lat, lon]] a click allocates: its identity and its two
    elements.  React compares state and effect dependencies with
    [Object.is], which on arrays is identity. *)
Record coordsArray : Type := {
  addr : nat;
  elems : Q * Q
}.

(** The five [useState] slots of [MapView]. *)
Record state : Type := {
  earthquakes : list feature;
  loading : bool;
  error : string;
  selectedCoords : option coordsArray;
  sidebarOpen : bool
}.

Definition initialState : state :=
  {| earthquakes := [];
     loading := true;
     error := "";
     selectedCoords := None;
     sidebarOpen := false |}.

Definition setEarthquakes (x : list feature) (st : state) : state :=
  {| earthquakes := x;
     loading := loading st;
     error := error st;
     selectedCoords := selectedCoords st;
     sidebarOpen := sidebarOpen st |}.

Definition setLoading (x : bool) (st : state) : state :=
  {| earthquakes := earthquakes st;
     loading := x;
     error := error st;
     selectedCoords := selectedCoords st;
     sidebarOpen := sidebarOpen st |}.

Definition setError (x : string) (st : state) : state :=
  {| earthquakes := earthquakes st;
     loading := loading st;
     error := x;
     selectedCoords := selectedCoords st;
     sidebarOpen := sidebarOpen st |}.

Definition setSelectedCoords (x : option coordsArray) (st : state) : state :=
  {| earthquakes := earthquakes st;
     loading := loading st;
     error := error st;
     selectedCoords := x;
     sidebarOpen := sidebarOpen st |}.

Definition setSidebarOpen (x : bool) (st : state) : state :=
  {| earthquakes := earthquakes st;
     loading := loading st;
     error := error st;
     selectedCoords := selectedCoords st;
     sidebarOpen := x |}.

(** ** fetchEarthquakes *)

(** The decoded feed document; [features] is [None] when the document has
    no such array. *)
Record document : Type := {
  features : option (list feature)
}.

(** How the request ends: [fetch] rejects, or a response arrives with its
    [ok] flag and a body that [res.json()] decodes or rejects ([None]). *)
Inductive response : Type :=
| Rejected
| Response (ok : bool) (json : option document).

(** The comparator of the sort (MapView.jsx line 40). *)
Definition byTime (a b : feature) : Z := time (props b) - time (props a).

(** The exception thrown on a response whose [ok] is false. *)
Definition statusError (v : variant) : exn :=
  match v with
  | Components | Responsive => Error "Network failed"
  | Plain => Error "Network response failed"
  end.

(** The [try] block after the request is issued, up to [sorted]. *)
Definition received (v : variant) (r : response) : result (list feature) :=
  match r with
  | Rejected => Throw TypeError
  | Response ok json =>
      if negb ok then Throw (statusError v)
      else
        match json with
        | None => Throw SyntaxError
        | Some data =>
            match features data with
            | None => Throw TypeError
            | Some fs => Ok (sort byTime fs)
            end
        end
  end.

Definition failureMessage (v : variant) : string :=
  match v with
  | Components => "⚠️ Failed to fetch earthquake data."
  | Responsive => "⚠️ Failed to load earthquake data."
  | Plain => "⚠️ Failed to fetch earthquake data."
  end.

(** [fetchEarthquakes] up to its first [await]. *)
Definition fetchEarthquakes_begin (st : state) : state := setLoading true st.

(** [fetchEarthquakes] from the moment the request has ended: the rest of
    [try], the [catch] and the [finally]. *)
Definition fetchEarthquakes_settle (v : variant) (r : response) (st : state)
  : state :=
  setLoading false
    match received v r with
    | Ok sorted => setError "" (setEarthquakes sorted st)
    | Throw _ => setError (failureMessage v) st
    end.

(** ** Rendering *)

Record listItem : Type := {
  itemKey : string;
  itemColor : textColor;
  itemMag : text;               (* after the letter M *)
  itemTime : Z;                 (* shown through [toLocaleTimeString] *)
  itemPlace : string;
  itemCoords : Q * Q            (* the [[lat, lon]] its click selects *)
}.

Record marker : Type := {
  markerKey : string;
  position : Q * Q;
  iconColor : color;
  popupPlace : string;
  popupMag : text;
  popupTime : Z
}.

Definition renderItem (eq : feature) : result listItem :=
  let '(lon, lat) := coordinates eq in
  let color := listColor (mag (props eq)) in
  bind (toFixed (mag (props eq))) (fun m =>
  Ok {| itemKey := fid eq;
        itemColor := color;
        itemMag := m;
        itemTime := time (props eq);
        itemPlace := place (props eq);
        itemCoords := (lat, lon) |}).

Definition renderMarker (eq : feature) : result marker :=
  let '(lon, lat) := coordinates eq in
  let color := markerColor (mag (props eq)) in
  bind (toFixed (mag (props eq))) (fun m =>
  Ok {| markerKey := fid eq;
        position := (lat, lon);
        iconColor := color;
        popupPlace := place (props eq);
        popupMag := m;
        popupTime := time (props eq) |}).

(** What [MapView] returns.  [MainView] carries the flag that decides the
    sidebar's class, the list entries, the markers and the [coordinates]
    prop of [FlyToLocation]. *)
Inductive view : Type :=
| LoadingView
| ErrorView (message : string)
| NoDataView
| MainView (open : bool) (items : list listItem) (markers : list marker)
    (flyTo : option coordsArray).

Definition mainView (st : state) : result view :=
  bind (mapM renderItem (slice 0 10 (earthquakes st))) (fun items =>
  bind (mapM renderMarker (earthquakes st)) (fun markers =>
  Ok (MainView (sidebarOpen st) items markers (selectedCoords st)))).

Definition render (v : variant) (st : state) : result view :=
  if loading st then Ok LoadingView
  else if negb (error st =? "")%string then Ok (ErrorView (error st))
  else
    match v with
    | Components => mainView st
    | Responsive | Plain =>
        if (List.length (earthquakes st) =? 0)%nat then Ok NoDataView
        else mainView st
    end.

(** ** The running view

    The component's state together with what surrounds it: the window
    width, the allocator of array identities, the Leaflet map that is in
    the tree while the main layout is rendered, the requests in flight and
    the record of the calls the claims are about. *)

Inductive call : Type :=
| SetSelectedCoords (a : coordsArray)
| FlyTo (target : Q * Q) (zoomTo : Z).   (* always over 1.5 seconds *)

(** The mounted [MapContainer] with its [FlyToLocation] child: the
    dependency the effect last ran with, and the camera the component
    has asked for, which is the initial view of [MapContainer] or the
    destination of the latest [flyTo].  What the user does to the map by
    wheel or drag, and the 1.5 seconds a flight takes, are Leaflet's and
    not part of this record. *)
Record mapInstance : Type := {
  deps : option coordsArray;
  center : Q * Q;
  zoom : Z
}.

Record world : Type := {
  comp : state;
  innerWidth : Z;
  nextAddr : nat;
  leaflet : option mapInstance;
  calls : list call;            (* oldest first *)
  inFlight : nat;
  unmounted : bool              (* a render threw: React removed the tree *)
}.

Definition withComp (f : state -> state) (w : world) : world :=
  {| comp := f (comp w);
     innerWidth := innerWidth w;
     nextAddr := nextAddr w;
     leaflet := leaflet w;
     calls := calls w;
     inFlight := inFlight w;
     unmounted := unmounted w |}.

Definition withLeaflet (m : option mapInstance) (w : world) : world :=
  {| comp := comp w;
     innerWidth := innerWidth w;
     nextAddr := nextAddr w;
     leaflet := m;
     calls := calls w;
     inFlight := inFlight w;
     unmounted := unmounted w |}.

Definition recordCall (c : call) (w : world) : world :=
  {| comp := comp w;
     innerWidth := innerWidth w;
     nextAddr := nextAddr w;
     leaflet := leaflet w;
     calls := calls w ++ [c];
     inFlight := inFlight w;
     unmounted := unmounted w |}.

(** [MapContainer center={[20, 0]} zoom={2}] *)
Definition defaultCenter : Q * Q := (20%Q, 0%Q).
Definition defaultZoom : Z := 2.

(** [Object.is] on the [coordinates] dependency. *)
Definition sameValue (a b : option coordsArray) : bool :=
  match a, b with
  | None, None => true
  | Some x, Some y => Nat.eqb (addr x) (addr y)
  | _, _ => false
  end.

(** The effect of [FlyToLocation] (MapView.jsx line 19), run with the map
    [m] in the tree. *)
Definition flyToEffect (coordinates : option coordsArray) (m : mapInstance)
  (w : world) : world :=
  match coordinates with
  | Some a =>
      recordCall (FlyTo (elems a) 5)
        (withLeaflet
           (Some {| deps := coordinates; center := elems a; zoom := 5 |}) w)
  | None => withLeaflet (Some m) w
  end.

(** React renders the component and commits the result.  The map is
    mounted when the main layout appears (its effect runs), keeps running
    the effect when the dependency changes, and goes away with any other
    view.  A render that throws removes the whole tree. *)
Definition commit (v : variant) (w : world) : world :=
  if unmounted w then w
  else
    match render v (comp w) with
    | Throw _ =>
        {| comp := comp w;
           innerWidth := innerWidth w;
           nextAddr := nextAddr w;
           leaflet := None;
           calls := calls w;
           inFlight := inFlight w;
           unmounted := true |}
    | Ok (MainView _ _ _ coordinates) =>
        match leaflet w with
        | None =>
            flyToEffect coordinates
              {| deps := coordinates;
                 center := defaultCenter;
                 zoom := defaultZoom |} w
        | Some m =>
            if sameValue (deps m) coordinates then w
            else
              flyToEffect coordinates
                {| deps := coordinates; center := center m; zoom := zoom m |}
                w
        end
    | Ok _ => withLeaflet None w
    end.

Inductive event : Type :=
| ClickItem (i : nat)           (* the i-th entry of the list *)
| ClickToggle                   (* the sidebar button, hidden from 768px up *)
| ClickRefresh
| ClickRetry
| Settle (r : response)         (* a request in flight ends *)
| Resize (width : Z).

(** A call of [fetchEarthquakes] from a handler or from the mount effect. *)
Definition startFetch (w : world) : world :=
  {| comp := fetchEarthquakes_begin (comp w);
     innerWidth := innerWidth w;
     nextAddr := nextAddr w;
     leaflet := leaflet w;
     calls := calls w;
     inFlight := S (inFlight w);
     unmounted := unmounted w |}.

(** Whether the [onClick] of a list entry calls [setSidebarOpen(false)]:
    always in MapView.jsx (lines 120-123), below 768 pixels in part_001
    lines 133-136, never in part_001 line 324. *)
Definition collapses (v : variant) (w : world) : bool :=
  match v with
  | Components => true
  | Responsive => innerWidth w <? 768
  | Plain => false
  end.

(** The sidebar button exists in the first two variants. *)
Definition hasToggle (v : variant) : bool :=
  match v with
  | Components | Responsive => true
  | Plain => false
  end.

(** The [onClick] of a list entry. *)
Definition onClickItem (v : variant) (it : listItem) (w : world) : world :=
  let a := {| addr := nextAddr w; elems := itemCoords it |} in
  let st := setSelectedCoords (Some a) (comp w) in
  {| comp := if collapses v w then setSidebarOpen false st else st;
     innerWidth := innerWidth w;
     nextAddr := S (nextAddr w);
     leaflet := leaflet w;
     calls := calls w ++ [SetSelectedCoords a];
     inFlight := inFlight w;
     unmounted := unmounted w |}.

(** The handler an event reaches; an event with no handler on screen
    changes nothing. *)
Definition handle (v : variant) (e : event) (w : world) : world :=
  match e with
  | Resize width =>
      {| comp := comp w;
         innerWidth := width;
         nextAddr := nextAddr w;
         leaflet := leaflet w;
         calls := calls w;
         inFlight := inFlight w;
         unmounted := unmounted w |}
  | Settle r =>
      match inFlight w with
      | O => w
      | S n =>
          {| comp := if unmounted w then comp w
                     else fetchEarthquakes_settle v r (comp w);
             innerWidth := innerWidth w;
             nextAddr := nextAddr w;
             leaflet := leaflet w;
             calls := calls w;
             inFlight := n;
             unmounted := unmounted w |}
      end
  | _ =>
      if unmounted w then w
      else
        match render v (comp w), e with
        | Ok (MainView _ items _ _), ClickItem i =>
            match nth_error items i with
            | Some it => onClickItem v it w
            | None => w
            end
        | Ok (MainView _ _ _ _), ClickToggle =>
            if hasToggle v && (innerWidth w <? 768)
            then withComp (setSidebarOpen (negb (sidebarOpen (comp w)))) w
            else w
        | Ok (MainView _ _ _ _), ClickRefresh => startFetch w
        | Ok (ErrorView _), ClickRetry => startFetch w
        | _, _ => w
        end
  end.

Definition step (v : variant) (e : event) (w : world) : world :=
  commit v (handle v e w).

Definition run (v : variant) (es : list event) (w : world) : world :=
  fold_left (fun w e => step v e w) es w.

(** The first render and the mount effect (MapView.jsx lines 51-55); the
    delayed [resize] event it schedules changes no state. *)
Definition mount (v : variant) (width : Z) : world :=
  commit v
    (startFetch
       {| comp := initialState;
          innerWidth := width;
          nextAddr := O;
          leaflet := None;
          calls := [];
          inFlight := O;
          unmounted := false |}).

(** ** Sample feeds used by the closed examples *)

Definition quake (i : string) (m : value) (t : Z) : feature :=
  {| fid := i;
     coordinates := (142 # 1, 38 # 1)%Q;
     props := {| mag := m; place := "off the coast"; time := t |} |}.

(** The scenario of the specification: magnitudes 6.5, 3.2, 1.0 at times
    100, 300, 200. *)
Definition sampleFeed : list feature :=
  [quake "a" (Num (Finite (65 # 10))) 100;
   quake "b" (Num (Finite (32 # 10))) 300;
   quake "c" (Num (Finite 1)) 200].

Definition success (fs : list feature) : response :=
  Response true (Some {| features := Some fs |}).

(** A feed whose only event has no magnitude ([mag] is JSON null). *)
Definition nullFeed : list feature := [quake "n" Null 5].

(** Twelve events, newest first. *)
Definition longFeed : list feature :=
  map (fun t => quake "q" (Num (Finite (inject_Z t))) t)
    [12; 11; 10; 9; 8; 7; 6; 5; 4; 3; 2; 1].

(** A phone loads the feed, opens the sidebar and is then turned to a
    width of 1024 pixels. *)
Definition openedThenWide : list event :=
  [Settle (success sampleFeed); ClickToggle; Resize 1024].

(** The requests that do not deliver a collection. *)
Inductive failed : response -> Prop :=
| failed_transport : failed Rejected
| failed_status : forall json, failed (Response false json)
| failed_decode : failed (Response true None)
| failed_schema : failed (Response true (Some {| features := None |})).

(** A magnitude that is a Number. *)
Definition numeric (eq : feature) : Prop :=
  exists x, mag (props eq) = Num x.

Definition atTime (t : Z) (eq : feature) : bool := time (props eq) =? t.

Definition newerFirst (a b : feature) : Prop :=
  time (props b) <= time (props a).

(** ** Invariants of the running view *)

(** Array identities in use are older than the next one handed out, and
    the dependency the map's effect last saw is the current selection. *)
Definition fresh (w : world) : Prop :=
  (forall a, selectedCoords (comp w) = Some a -> (addr a < nextAddr w)%nat) /\
  (forall m, leaflet w = Some m ->
             sameValue (deps m) (selectedCoords (comp w)) = true).

(** No call has been recorded and the camera, if there is a map, is where
    [MapContainer] put it. *)
Definition atRest (w : world) : Prop :=
  calls w = [] /\
  forall m, leaflet w = Some m ->
            center m = defaultCenter /\ zoom m = defaultZoom.

(** A session without any selection: refresh, failure, retry, toggle. *)
Definition browsing : list event :=
  [Settle (success sampleFeed); ClickToggle; ClickRefresh; Settle Rejected;
   ClickRetry; Settle (success sampleFeed); Resize 1024].

(** ** Further vocabulary *)

(** The tiers in order of severity. *)
Definition tierRank (t : severityTier) : nat :=
  match t with
  | minor => 0
  | light => 1
  | moderate => 2
  | severe => 3
  end.

(** An event whose magnitude is not a Number. *)
Definition missing (eq : feature) : Prop :=
  forall x, mag (props eq) <> Num x.

(** Where the camera is for a given selection: where [MapContainer] put
    it, or where the last [flyTo] sent it. *)
Definition cameraAt (sel : option coordsArray) (m : mapInstance) : Prop :=
  match sel with
  | None => center m = defaultCenter /\ zoom m = defaultZoom
  | Some a => center m = elems a /\ zoom m = 5
  end.

(** The mounted map has seen the current selection and looks at it. *)
Definition inSync (w : world) : Prop :=
  forall m, leaflet w = Some m ->
            deps m = selectedCoords (comp w) /\
            cameraAt (selectedCoords (comp w)) m.

(** While the view is alive its render succeeds, and the map is in the
    tree exactly with the main layout. *)
Definition mapShown (v : variant) (w : world) : Prop :=
  unmounted w = false ->
  match render v (comp w) with
  | Ok (MainView _ _ _ _) => leaflet w <> None
  | Ok _ => leaflet w = None
  | Throw _ => False
  end.

(** The loading flag mirrors the one request that can be in flight. *)
Definition oneRequest (w : world) : Prop :=
  unmounted w = false ->
  (loading (comp w) = true /\ inFlight w = 1%nat) \/
  (loading (comp w) = false /\ inFlight w = 0%nat).

(** What holds of every state the view reaches. *)
Definition stable (v : variant) (w : world) : Prop :=
  fresh w /\ inSync w /\ mapShown v w.

(** A session in which the window is never narrower than 768 pixels. *)
Definition wideOnly (es : list event) : Prop :=
  Forall (fun e => match e with Resize width => 768 <= width | _ => True end)
    es.

(** A feed with two events of the same time and one without magnitude
    in between. *)
Definition mixedFeed : list feature :=
  [quake "x" (Num (Finite 5)) 7; quake "y" Undefined 9;
   quake "z" (Num (Finite (25 # 10))) 7].

(** * Properties *)

(** ** Classification *)

Lemma ge_finite (q c : Q) :
  ge (Num (Finite q)) (Num (Finite c)) = Qle_bool c q.
Proof.
  unfold ge; simpl. destruct (Qle_bool c q); reflexivity.
Qed.

Lemma ge_null_positive (c : Q) :
  (0 < c)%Q -> ge Null (Num (Finite c)) = false.
Proof.
  intros H. unfold ge; simpl.
  destruct (Qle_bool c 0) eqn:E; [|reflexivity].
  apply Qle_bool_iff in E. exfalso. apply (Qlt_not_le _ _ H E).
Qed.

Lemma ge_undefined (b : value) : ge Undefined b = false.
Proof. unfold ge; simpl. reflexivity. Qed.

(** The marker colour follows the thresholds 6, 4 and 2 on every finite
    magnitude. *)
Lemma markerColor_thresholds (q : Q) :
  markerColor (Num (Finite q)) =
    if Qle_bool 6 q then red
    else if Qle_bool 4 q then orange
    else if Qle_bool 2 q then yellow
    else green.
Proof.
  unfold markerColor, six, four, two. rewrite !ge_finite. reflexivity.
Qed.

Lemma Qle_bool_cases (c q : Q) :
  if Qle_bool c q then (c <= q)%Q else (q < c)%Q.
Proof.
  destruct (Qle_bool c q) eqn:E.
  - now apply Qle_bool_iff.
  - apply Qnot_le_lt. intros H. apply Qle_bool_iff in H. congruence.
Qed.

Lemma markerColor_partition (q : Q) :
  ((6 <= q)%Q -> markerColor (Num (Finite q)) = red) /\
  ((4 <= q)%Q -> (q < 6)%Q -> markerColor (Num (Finite q)) = orange) /\
  ((2 <= q)%Q -> (q < 4)%Q -> markerColor (Num (Finite q)) = yellow) /\
  ((q < 2)%Q -> markerColor (Num (Finite q)) = green).
Proof.
  rewrite markerColor_thresholds.
  pose proof (Qle_bool_cases 6 q) as H6.
  pose proof (Qle_bool_cases 4 q) as H4.
  pose proof (Qle_bool_cases 2 q) as H2.
  destruct (Qle_bool 6 q), (Qle_bool 4 q), (Qle_bool 2 q);
    repeat split; intros; try reflexivity; exfalso; lra.
Qed.

Lemma listColor_thresholds (q : Q) :
  listColor (Num (Finite q)) =
    if Qle_bool 6 q then text_red_600
    else if Qle_bool 4 q then text_orange_500
    else text_green_600.
Proof.
  unfold listColor, six, four. rewrite !ge_finite. reflexivity.
Qed.

(** Classification never throws, and a magnitude that is missing is
    minor: it is a function to colours, green on [null] and [undefined]. *)
Lemma classify_missing_is_minor :
  classify Null = minor /\ classify Undefined = minor.
Proof. split; reflexivity. Qed.

(** ** Display of a magnitude *)

Lemma toFixed_numeric (x : number) : toFixed (Num x) = Ok (toFixed1 x).
Proof. reflexivity. Qed.

Lemma toFixed_missing (m : value) :
  (forall x, m <> Num x) -> toFixed m = Throw TypeError.
Proof.
  destruct m as [| |x]; intros H; try reflexivity.
  exfalso. apply (H x). reflexivity.
Qed.

Lemma mapM_throws {A B} (f : A -> result B) (l : list A) (x : A) (e : exn) :
  In x l -> f x = Throw e -> exists e', mapM f l = Throw e'.
Proof.
  induction l as [|y l IH]; simpl; intros Hin Hf.
  - contradiction.
  - destruct Hin as [->|Hin].
    + rewrite Hf. simpl. eauto.
    + destruct (f y) as [b|e0]; simpl; [|eauto].
      destruct (IH Hin Hf) as [e' ->]. simpl. eauto.
Qed.

Lemma renderMarker_missing (eq : feature) :
  (forall x, mag (props eq) <> Num x) -> renderMarker eq = Throw TypeError.
Proof.
  intros H. unfold renderMarker. destruct (coordinates eq) as [lo la].
  rewrite (toFixed_missing _ H). reflexivity.
Qed.

(** One event without a magnitude anywhere in the collection makes the
    main layout throw. *)
Lemma mainView_throws_on_missing_magnitude (st : state) (eq : feature) :
  In eq (earthquakes st) ->
  (forall x, mag (props eq) <> Num x) ->
  exists e, mainView st = Throw e.
Proof.
  intros Hin Hm. unfold mainView.
  destruct (mapM renderItem (slice 0 10 (earthquakes st))) as [items|e];
    simpl; [|eauto].
  destruct (mapM_throws renderMarker _ _ _ Hin (renderMarker_missing _ Hm))
    as [e' ->].
  simpl. eauto.
Qed.

(** C1, at the input where the code departs from it: an event whose
    magnitude is null is classified minor without an error, but both the
    list entry and the popup call [toFixed] on it, which throws a
    TypeError; the render fails and React removes the view, in every
    variant. *)
Theorem null_magnitude_display_throws :
  classify Null = minor /\
  renderItem (quake "n" Null 5) = Throw TypeError /\
  renderMarker (quake "n" Null 5) = Throw TypeError /\
  forall v,
    render v (fetchEarthquakes_settle v (success nullFeed) initialState)
      = Throw TypeError /\
    unmounted (run v [Settle (success nullFeed)] (mount v 1024)) = true.
Proof.
  repeat split; try (vm_compute; reflexivity);
    destruct v; vm_compute; reflexivity.
Qed.

(** C2, at the input where the code departs from it: magnitude 3.2 lies
    in the tier light, and its marker is yellow, but its list entry gets
    the green class, the same as magnitude 1.0 of tier minor; the list
    knows three colours, not four. *)
Theorem list_entry_colour_of_light_magnitude :
  markerColor (Num (Finite (32 # 10))) = yellow /\
  classify (Num (Finite (32 # 10))) = light /\
  listColor (Num (Finite (32 # 10))) = text_green_600 /\
  listColor (Num (Finite 1)) = text_green_600 /\
  tierOfTextColor (listColor (Num (Finite (32 # 10)))) = minor.
Proof. repeat split; vm_compute; reflexivity. Qed.

(** The list colour of every magnitude from 2 up to 4 is the one of the
    magnitudes below 2. *)
Lemma listColor_has_no_light_tier (q : Q) :
  (q < 4)%Q -> listColor (Num (Finite q)) = text_green_600.
Proof.
  intros H. rewrite listColor_thresholds.
  pose proof (Qle_bool_cases 6 q) as H6.
  pose proof (Qle_bool_cases 4 q) as H4.
  destruct (Qle_bool 6 q), (Qle_bool 4 q); try reflexivity; exfalso; lra.
Qed.

(** ** Sorting by time *)

Lemma insert_byTime_perm (x : feature) (l : list feature) :
  Permutation (x :: l) (insert byTime x l).
Proof.
  induction l as [|y l IH]; simpl.
  - apply Permutation_refl.
  - destruct (0 <? byTime x y).
    + apply perm_trans with (y :: x :: l).
      * apply perm_swap.
      * apply perm_skip. exact IH.
    + apply Permutation_refl.
Qed.

Lemma sort_byTime_perm (l : list feature) :
  Permutation l (sort byTime l).
Proof.
  induction l as [|x l IH]; simpl.
  - apply perm_nil.
  - apply perm_trans with (x :: sort byTime l).
    + apply perm_skip. exact IH.
    + apply insert_byTime_perm.
Qed.

Lemma insert_byTime_Forall (P : feature -> Prop) (x : feature)
  (l : list feature) :
  P x -> Forall P l -> Forall P (insert byTime x l).
Proof.
  intros Hx Hl. induction Hl as [|y l Hy Hl IH]; simpl.
  - constructor; [exact Hx|constructor].
  - destruct (0 <? byTime x y); constructor; auto.
Qed.

Lemma insert_byTime_sorted (x : feature) (l : list feature) :
  StronglySorted newerFirst l -> StronglySorted newerFirst (insert byTime x l).
Proof.
  intros Hs. induction Hs as [|y l Hs IH Hy]; simpl.
  - constructor; constructor.
  - destruct (0 <? byTime x y) eqn:E.
    + apply Z.ltb_lt in E. unfold byTime in E.
      constructor; [exact IH|].
      apply insert_byTime_Forall; [|exact Hy].
      unfold newerFirst. lia.
    + apply Z.ltb_ge in E. unfold byTime in E.
      constructor; [constructor; assumption|].
      constructor; [unfold newerFirst; lia|].
      eapply Forall_impl; [|exact Hy].
      unfold newerFirst. intros b Hb. lia.
Qed.

Lemma sort_byTime_sorted (l : list feature) :
  StronglySorted newerFirst (sort byTime l).
Proof.
  induction l as [|x l IH]; simpl.
  - constructor.
  - apply insert_byTime_sorted. exact IH.
Qed.

(** An inserted event never moves past one of its own time. *)
Lemma insert_byTime_stable (t : Z) (x : feature) (l : list feature) :
  filter (atTime t) (insert byTime x l) = filter (atTime t) (x :: l).
Proof.
  induction l as [|y l IH]; [reflexivity|].
  cbn [insert]. destruct (0 <? byTime x y) eqn:E; [|reflexivity].
  apply Z.ltb_lt in E. unfold byTime in E.
  cbn [filter] in *. rewrite IH.
  unfold atTime.
  destruct (time (props y) =? t) eqn:Ey;
    destruct (time (props x) =? t) eqn:Ex; try reflexivity.
  apply Z.eqb_eq in Ey, Ex. lia.
Qed.

Lemma sort_byTime_stable (t : Z) (l : list feature) :
  filter (atTime t) (sort byTime l) = filter (atTime t) l.
Proof.
  induction l as [|x l IH]; [reflexivity|].
  cbn [sort]. rewrite insert_byTime_stable. cbn [filter].
  rewrite IH. reflexivity.
Qed.

Lemma settle_success (v : variant) (fs : list feature) (st : state) :
  fetchEarthquakes_settle v (success fs) st =
    setLoading false (setError "" (setEarthquakes (sort byTime fs) st)).
Proof. reflexivity. Qed.

(** C3: after a fetch that succeeds with the events [fs], the stored
    collection holds exactly the events of [fs], in descending order of
    timestamp, and the events of any one timestamp stand in the order the
    feed had them. *)
Theorem fetched_events_sorted_by_time_stable :
  forall (v : variant) (st : state) (fs : list feature),
    let stored := earthquakes (fetchEarthquakes_settle v (success fs) st) in
    Permutation fs stored /\
    StronglySorted newerFirst stored /\
    forall t, filter (atTime t) stored = filter (atTime t) fs.
Proof.
  intros v st fs. rewrite settle_success. cbn.
  split; [apply sort_byTime_perm|].
  split; [apply sort_byTime_sorted|].
  intros t. apply sort_byTime_stable.
Qed.

(** The scenario of the specification: times 100, 300, 200 come out as
    300, 200, 100 with tiers light, minor, severe. *)
Example scenario_ranking :
  map (fun eq => (time (props eq), classify (mag (props eq))))
    (sort byTime sampleFeed)
  = [(300, light); (200, minor); (100, severe)].
Proof. vm_compute. reflexivity. Qed.

(** ** The list shows a prefix *)

Lemma slice_prefix {A} (n : nat) (l : list A) :
  slice 0 (Z.of_nat n) l = firstn n l.
Proof.
  unfold slice, relativeIndex.
  replace (0 <? 0) with false by reflexivity.
  replace (Z.of_nat n <? 0) with false by (symmetry; apply Z.ltb_ge; lia).
  rewrite (Z.min_l 0) by lia. cbn [Z.to_nat skipn].
  rewrite Z.sub_0_r.
  destruct (Nat.le_ge_cases n (List.length l)) as [H|H].
  - rewrite Z.min_l by lia. rewrite Nat2Z.id. reflexivity.
  - rewrite Z.min_r by lia. rewrite Nat2Z.id.
    rewrite !firstn_all2 by lia. reflexivity.
Qed.

Lemma mapM_total {A B} (f : A -> result B) (l : list A) :
  Forall (fun x => exists y, f x = Ok y) l ->
  exists ys, mapM f l = Ok ys.
Proof.
  induction 1 as [|x l [y Hy] _ [ys IH]]; simpl.
  - eauto.
  - rewrite Hy, IH. simpl. eauto.
Qed.

Lemma mapM_keys {A B K} (f : A -> result B) (kA : A -> K) (kB : B -> K)
  (l : list A) (ys : list B) :
  (forall x y, f x = Ok y -> kB y = kA x) ->
  mapM f l = Ok ys -> map kB ys = map kA l.
Proof.
  intros Hk. revert ys. induction l as [|x l IH]; simpl; intros ys H.
  - injection H as <-. reflexivity.
  - destruct (f x) as [y|e] eqn:Ef; simpl in H; [|discriminate].
    destruct (mapM f l) as [zs|e]; simpl in H; [|discriminate].
    injection H as <-. simpl. rewrite (Hk _ _ Ef), (IH zs eq_refl).
    reflexivity.
Qed.

Lemma renderItem_numeric (eq : feature) :
  numeric eq -> exists it, renderItem eq = Ok it.
Proof.
  intros [x Hx]. unfold renderItem. destruct (coordinates eq) as [lo la].
  rewrite Hx. simpl. eauto.
Qed.

Lemma renderMarker_numeric (eq : feature) :
  numeric eq -> exists mk, renderMarker eq = Ok mk.
Proof.
  intros [x Hx]. unfold renderMarker. destruct (coordinates eq) as [lo la].
  rewrite Hx. simpl. eauto.
Qed.

Lemma renderItem_key (eq : feature) (it : listItem) :
  renderItem eq = Ok it -> itemKey it = fid eq.
Proof.
  unfold renderItem. destruct (coordinates eq) as [lo la].
  destruct (toFixed (mag (props eq))); simpl; intros H;
    [injection H as <-; reflexivity|discriminate].
Qed.

Lemma renderMarker_key (eq : feature) (mk : marker) :
  renderMarker eq = Ok mk -> markerKey mk = fid eq.
Proof.
  unfold renderMarker. destruct (coordinates eq) as [lo la].
  destruct (toFixed (mag (props eq))); simpl; intros H;
    [injection H as <-; reflexivity|discriminate].
Qed.

Lemma Forall_firstn {A} (P : A -> Prop) (n : nat) (l : list A) :
  Forall P l -> Forall P (firstn n l).
Proof.
  intros H. revert n. induction H as [|x l Hx _ IH]; intros [|n]; simpl;
    constructor; auto.
Qed.

Lemma longFeed_numeric : Forall numeric longFeed.
Proof.
  unfold longFeed. apply Forall_forall. intros eq Hin.
  apply in_map_iff in Hin. destruct Hin as [t [<- _]].
  unfold numeric. simpl. eauto.
Qed.

(** ** Failed and successful requests *)

Lemma failed_received (v : variant) (r : response) :
  failed r <-> exists e, received v r = Throw e.
Proof.
  split.
  - intros H. destruct H as [|[json|]| |]; simpl; eauto.
  - intros [e H]. destruct r as [|[|] [[[fs|]]|]]; simpl in H;
      try discriminate; constructor.
Qed.

Lemma settle_failed (v : variant) (r : response) (st : state) :
  failed r ->
  fetchEarthquakes_settle v r st
    = setLoading false (setError (failureMessage v) st).
Proof.
  intros H. apply (failed_received v) in H. destruct H as [e H].
  unfold fetchEarthquakes_settle. rewrite H. reflexivity.
Qed.

Lemma failureMessage_truthy (v : variant) :
  (failureMessage v =? "")%string = false.
Proof. destruct v; reflexivity. Qed.

(** C10: a fetch that fails, by transport, status or payload, leaves the
    stored collection as it was; it writes the error message and the
    loading flag and nothing else. *)
Theorem failed_fetch_keeps_collection :
  forall (v : variant) (r : response) (st : state),
    failed r ->
    let st' := fetchEarthquakes_settle v r st in
    earthquakes st' = earthquakes st /\
    selectedCoords st' = selectedCoords st /\
    sidebarOpen st' = sidebarOpen st /\
    error st' = failureMessage v /\
    loading st' = false.
Proof.
  intros v r st H. rewrite (settle_failed v r st H). cbn.
  repeat split; reflexivity.
Qed.

Lemma failed_fetch_keeps_collection_witness :
  earthquakes
    (fetchEarthquakes_settle Components (Response false None)
       (fetchEarthquakes_begin
          (fetchEarthquakes_settle Components (success sampleFeed)
             initialState)))
  = sort byTime sampleFeed.
Proof.
  exact (proj1 (failed_fetch_keeps_collection Components (Response false None)
                  (fetchEarthquakes_begin
                     (fetchEarthquakes_settle Components (success sampleFeed)
                        initialState))
                  (failed_status None))).
Defined.

(** ** What a commit and a handler leave alone *)

Ltac split_matches :=
  repeat match goal with
  | |- context [if ?b then _ else _] => destruct b eqn:?
  | |- context [match ?x with _ => _ end] => destruct x eqn:?
  end.

Lemma commit_frame (v : variant) (w : world) :
  comp (commit v w) = comp w /\
  innerWidth (commit v w) = innerWidth w /\
  nextAddr (commit v w) = nextAddr w /\
  inFlight (commit v w) = inFlight w.
Proof.
  unfold commit, flyToEffect. split_matches; simpl; auto.
Qed.

Lemma commit_comp (v : variant) (w : world) : comp (commit v w) = comp w.
Proof. apply commit_frame. Qed.

Lemma commit_alive (v : variant) (w : world) (vw : view) :
  unmounted w = false ->
  render v (comp w) = Ok vw ->
  unmounted (commit v w) = false.
Proof.
  intros Hu Hr. unfold commit, flyToEffect. rewrite Hu, Hr.
  split_matches; simpl; auto.
Qed.

Lemma step_comp (v : variant) (e : event) (w : world) :
  comp (step v e w) = comp (handle v e w).
Proof. apply commit_comp. Qed.

Lemma handle_settle (v : variant) (r : response) (w : world) :
  unmounted w = false ->
  (0 < inFlight w)%nat ->
  comp (handle v (Settle r) w) = fetchEarthquakes_settle v r (comp w) /\
  unmounted (handle v (Settle r) w) = false /\
  S (inFlight (handle v (Settle r) w)) = inFlight w.
Proof.
  intros Hu Hp. simpl. destruct (inFlight w) as [|n]; [lia|].
  simpl. rewrite Hu. auto.
Qed.

Lemma render_loading (v : variant) (st : state) :
  loading st = true -> render v st = Ok LoadingView.
Proof. intros H. unfold render. rewrite H. reflexivity. Qed.

Lemma render_failed (v : variant) (st : state) :
  loading st = false ->
  error st = failureMessage v ->
  render v st = Ok (ErrorView (failureMessage v)).
Proof.
  intros Hl He. unfold render. rewrite Hl, He, failureMessage_truthy.
  reflexivity.
Qed.

Lemma render_ready (v : variant) (st : state) :
  loading st = false ->
  error st = ""%string ->
  render v st <> Ok LoadingView /\
  forall msg, render v st <> Ok (ErrorView msg).
Proof.
  intros Hl He. unfold render, mainView. rewrite Hl, He. simpl.
  split; [|intros msg];
    (destruct v;
     try (destruct (List.length (earthquakes st) =? 0)%nat; [discriminate|]);
     destruct (mapM renderItem _); simpl; try discriminate;
     destruct (mapM renderMarker _); simpl; discriminate).
Qed.

(** C7: a request that fails (by transport, status or payload) puts the
    view in the failed mode with the failure message; the retry button
    found there issues a new request and shows the loading mode; when that
    request succeeds the view is ready, holds the new events sorted, and
    the failure message is gone. *)
Theorem failed_fetch_then_retry :
  forall (v : variant) (w : world) (r : response) (fs : list feature),
    unmounted w = false ->
    (0 < inFlight w)%nat ->
    failed r ->
    let w1 := step v (Settle r) w in
    let w2 := step v ClickRetry w1 in
    let w3 := step v (Settle (success fs)) w2 in
    render v (comp w1) = Ok (ErrorView (failureMessage v)) /\
    render v (comp w2) = Ok LoadingView /\
    inFlight w2 = S (inFlight w1) /\
    loading (comp w3) = false /\
    error (comp w3) = ""%string /\
    earthquakes (comp w3) = sort byTime fs /\
    render v (comp w3) <> Ok LoadingView /\
    (forall msg, render v (comp w3) <> Ok (ErrorView msg)).
Proof.
  intros v w r fs Hu Hp Hf w1 w2 w3.
  destruct (handle_settle v r w Hu Hp) as (Hc1 & Hu1 & Hp1).
  assert (Hs1 : comp w1 = setLoading false (setError (failureMessage v) (comp w))).
  { unfold w1. rewrite step_comp, Hc1. apply settle_failed. exact Hf. }
  assert (Hr1 : render v (comp w1) = Ok (ErrorView (failureMessage v))).
  { apply render_failed; rewrite Hs1; reflexivity. }
  assert (Ha1 : unmounted w1 = false).
  { unfold w1, step. eapply commit_alive; [exact Hu1|].
    rewrite <- step_comp. exact Hr1. }
  assert (Hh2 : handle v ClickRetry w1 = startFetch w1).
  { simpl. rewrite Ha1, Hr1. reflexivity. }
  assert (Hs2 : comp w2 = fetchEarthquakes_begin (comp w1)).
  { unfold w2. rewrite step_comp, Hh2. reflexivity. }
  assert (Hr2 : render v (comp w2) = Ok LoadingView).
  { apply render_loading. rewrite Hs2. reflexivity. }
  assert (Hp2 : inFlight w2 = S (inFlight w1)).
  { unfold w2, step. rewrite (proj2 (proj2 (proj2 (commit_frame v _)))), Hh2.
    reflexivity. }
  assert (Ha2 : unmounted w2 = false).
  { unfold w2, step. eapply commit_alive.
    - rewrite Hh2. exact Ha1.
    - rewrite <- step_comp. exact Hr2. }
  destruct (handle_settle v (success fs) w2 Ha2) as (Hc3 & _ & _);
    [rewrite Hp2; lia|].
  assert (Hs3 : comp w3
                = setLoading false
                    (setError "" (setEarthquakes (sort byTime fs) (comp w2)))).
  { unfold w3. rewrite step_comp, Hc3. apply settle_success. }
  split; [exact Hr1|]. split; [exact Hr2|]. split; [exact Hp2|].
  rewrite Hs3. cbn [loading error earthquakes setLoading setError setEarthquakes].
  split; [reflexivity|]. split; [reflexivity|]. split; [reflexivity|].
  apply render_ready; reflexivity.
Qed.

Lemma failed_fetch_then_retry_witness :
  render Components
    (comp (step Components (Settle (Response false None)) (mount Components 1024)))
  = Ok (ErrorView (failureMessage Components)).
Proof.
  exact (proj1 (failed_fetch_then_retry Components (mount Components 1024)
                  (Response false None) sampleFeed
                  eq_refl (Nat.lt_0_succ 0) (failed_status None))).
Defined.

(** ** Clicking a list entry *)

Lemma render_main_inv (v : variant) (st : state) (o : bool)
  (items : list listItem) (markers : list marker) (c : option coordsArray) :
  render v st = Ok (MainView o items markers c) ->
  o = sidebarOpen st /\ c = selectedCoords st /\
  mainView st = Ok (MainView o items markers c).
Proof.
  unfold render. intros H.
  assert (Hm : mainView st = Ok (MainView o items markers c)).
  { destruct (loading st); [discriminate|].
    destruct (negb (error st =? "")%string); [discriminate|].
    destruct v; [exact H| |];
      (destruct (List.length (earthquakes st) =? 0)%nat;
       [discriminate|exact H]). }
  split; [|split; [|exact Hm]];
    unfold mainView in Hm;
    destruct (mapM renderItem _); simpl in Hm; try discriminate;
    destruct (mapM renderMarker _); simpl in Hm; try discriminate;
    congruence.
Qed.

(** The layout depends on the collection, the loading flag and the error
    only; selection and sidebar flag are passed through. *)
Lemma render_main_frame (v : variant) (st st' : state) (o : bool)
  (items : list listItem) (markers : list marker) (c : option coordsArray) :
  render v st = Ok (MainView o items markers c) ->
  earthquakes st' = earthquakes st ->
  loading st' = loading st ->
  error st' = error st ->
  render v st'
    = Ok (MainView (sidebarOpen st') items markers (selectedCoords st')).
Proof.
  unfold render, mainView. intros H He Hl Hr. rewrite He, Hl, Hr.
  destruct (loading st); [discriminate|].
  destruct (negb (error st =? "")%string); [discriminate|].
  assert (Hm : forall r,
    bind (mapM renderItem (slice 0 10 (earthquakes st))) (fun items0 =>
    bind (mapM renderMarker (earthquakes st)) (fun markers0 =>
    Ok (MainView (sidebarOpen st) items0 markers0 (selectedCoords st))))
      = r ->
    r = Ok (MainView o items markers c) ->
    bind (mapM renderItem (slice 0 10 (earthquakes st))) (fun items0 =>
    bind (mapM renderMarker (earthquakes st)) (fun markers0 =>
    Ok (MainView (sidebarOpen st') items0 markers0 (selectedCoords st'))))
      = Ok (MainView (sidebarOpen st') items markers (selectedCoords st'))).
  { intros r <-.
    destruct (mapM renderItem _); simpl; try discriminate.
    destruct (mapM renderMarker _); simpl; try discriminate.
    intros E. injection E as _ <- <- _. reflexivity. }
  destruct v; [apply (Hm _ eq_refl H)| |];
    (destruct (List.length (earthquakes st) =? 0)%nat; [discriminate|];
     apply (Hm _ eq_refl H)).
Qed.

Lemma handle_click (v : variant) (w : world) (o : bool)
  (items : list listItem) (markers : list marker) (c : option coordsArray)
  (i : nat) (it : listItem) :
  unmounted w = false ->
  render v (comp w) = Ok (MainView o items markers c) ->
  nth_error items i = Some it ->
  handle v (ClickItem i) w = onClickItem v it w.
Proof.
  intros Hu Hr Hi. simpl. rewrite Hu, Hr, Hi. reflexivity.
Qed.

(** In the variant of part_001 a click closes the sidebar below 768
    pixels and leaves the flag alone from 768 pixels up. *)
Lemma Responsive_click_sidebar (w : world) (o : bool)
  (items : list listItem) (markers : list marker) (c : option coordsArray)
  (i : nat) (it : listItem) :
  unmounted w = false ->
  render Responsive (comp w) = Ok (MainView o items markers c) ->
  nth_error items i = Some it ->
  sidebarOpen (comp (step Responsive (ClickItem i) w))
    = if innerWidth w <? 768 then false else sidebarOpen (comp w).
Proof.
  intros Hu Hr Hi. rewrite step_comp, (handle_click _ _ _ _ _ _ _ _ Hu Hr Hi).
  unfold onClickItem, collapses. simpl.
  destruct (innerWidth w <? 768); reflexivity.
Qed.

(** In MapView.jsx a click closes the sidebar at every width. *)
Lemma Components_click_sidebar (w : world) (o : bool)
  (items : list listItem) (markers : list marker) (c : option coordsArray)
  (i : nat) (it : listItem) :
  unmounted w = false ->
  render Components (comp w) = Ok (MainView o items markers c) ->
  nth_error items i = Some it ->
  sidebarOpen (comp (step Components (ClickItem i) w)) = false.
Proof.
  intros Hu Hr Hi. rewrite step_comp, (handle_click _ _ _ _ _ _ _ _ Hu Hr Hi).
  reflexivity.
Qed.

(** C5, at the input where the code departs from it: the sidebar was
    opened on a phone and the window is now 1024 pixels wide; a click on
    the first list entry sets the flag to closed in MapView.jsx, while the
    variant of part_001, which tests the width, leaves it open. *)
Theorem wide_click_closes_sidebar_in_Components :
  let w := run Components openedThenWide (mount Components 500) in
  let w' := run Responsive openedThenWide (mount Responsive 500) in
  innerWidth w = 1024 /\
  sidebarOpen (comp w) = true /\
  sidebarOpen (comp (step Components (ClickItem 0) w)) = false /\
  sidebarOpen (comp w') = true /\
  sidebarOpen (comp (step Responsive (ClickItem 0) w')) = true.
Proof. repeat split; vm_compute; reflexivity. Qed.

(** C8, at the input where the code departs from it: after a fetch
    that succeeds with no events, MapView.jsx renders the main layout with
    an empty list and no markers and shows no notice; the variants of
    part_001 render the notice in place of the whole layout. *)
Theorem empty_feed_renders_empty_list_in_Components :
  let w := run Components [Settle (success [])] (mount Components 1024) in
  let w' := run Responsive [Settle (success [])] (mount Responsive 1024) in
  let w'' := run Plain [Settle (success [])] (mount Plain 1024) in
  loading (comp w) = false /\
  error (comp w) = ""%string /\
  earthquakes (comp w) = [] /\
  render Components (comp w) = Ok (MainView false [] [] None) /\
  render Responsive (comp w') = Ok NoDataView /\
  render Plain (comp w'') = Ok NoDataView.
Proof. repeat split; vm_compute; reflexivity. Qed.

Lemma Responsive_empty_notice (st : state) :
  loading st = false ->
  error st = ""%string ->
  earthquakes st = [] ->
  render Responsive st = Ok NoDataView /\
  render Plain st = Ok NoDataView /\
  render Components st
    = Ok (MainView (sidebarOpen st) [] [] (selectedCoords st)).
Proof.
  intros Hl He Hq. unfold render, mainView. rewrite Hl, He, Hq.
  repeat split; reflexivity.
Qed.

(** ** Selection and the camera *)

(** A handler either leaves selection, allocator, map and call record
    alone, or it is the click handler of an entry on screen. *)
Lemma handle_cases (v : variant) (e : event) (w : world) :
  (selectedCoords (comp (handle v e w)) = selectedCoords (comp w) /\
   nextAddr (handle v e w) = nextAddr w /\
   leaflet (handle v e w) = leaflet w /\
   calls (handle v e w) = calls w /\
   unmounted (handle v e w) = unmounted w) \/
  (exists i o items markers c it,
     e = ClickItem i /\
     unmounted w = false /\
     render v (comp w) = Ok (MainView o items markers c) /\
     nth_error items i = Some it /\
     handle v e w = onClickItem v it w).
Proof.
  destruct e as [i| | | |r|width]; simpl.
  - destruct (unmounted w) eqn:Hu; [left; auto|].
    destruct (render v (comp w)) as [[|msg| |o items markers c]|ex] eqn:Hr;
      try (left; split; [|split; [|split; [|split]]]; reflexivity || exact Hu).
    destruct (nth_error items i) as [it|] eqn:Hi.
    + right. exists i, o, items, markers, c, it. auto.
    + left. auto.
  - left. destruct (unmounted w) eqn:Hu; [auto|].
    destruct (render v (comp w)) as [[|msg| |o items markers c]|ex];
      try destruct (hasToggle v && (innerWidth w <? 768)); simpl; auto.
  - left. destruct (unmounted w) eqn:Hu; [auto|].
    destruct (render v (comp w)) as [[|msg| |o items markers c]|ex];
      simpl; auto.
  - left. destruct (unmounted w) eqn:Hu; [auto|].
    destruct (render v (comp w)) as [[|msg| |o items markers c]|ex];
      simpl; auto.
  - left. destruct (inFlight w); simpl; [auto|].
    destruct (unmounted w); simpl; [auto|].
    unfold fetchEarthquakes_settle. destruct (received v r); simpl; auto.
  - left. auto.
Qed.

Lemma sameValue_refl (c : option coordsArray) : sameValue c c = true.
Proof. destruct c; simpl; [apply Nat.eqb_refl|reflexivity]. Qed.

Lemma commit_deps (v : variant) (w : world) (m : mapInstance) :
  unmounted w = false ->
  leaflet (commit v w) = Some m ->
  sameValue (deps m) (selectedCoords (comp w)) = true.
Proof.
  intros Hu. unfold commit. rewrite Hu.
  destruct (render v (comp w)) as [[|msg| |o items markers c]|ex] eqn:Hr;
    simpl; try discriminate.
  destruct (render_main_inv _ _ _ _ _ _ Hr) as (_ & -> & _).
  destruct (leaflet w) as [m0|] eqn:Hl.
  - destruct (sameValue (deps m0) (selectedCoords (comp w))) eqn:Hs.
    + rewrite Hl. intros E. injection E as <-. exact Hs.
    + unfold flyToEffect. destruct (selectedCoords (comp w)) eqn:Hc; simpl;
        intros E; injection E as <-; simpl;
        [apply Nat.eqb_refl|reflexivity].
  - unfold flyToEffect. destruct (selectedCoords (comp w)) eqn:Hc; simpl;
      intros E; injection E as <-; simpl;
      [apply Nat.eqb_refl|reflexivity].
Qed.

Lemma commit_unmounted (v : variant) (w : world) :
  unmounted w = true -> commit v w = w.
Proof. intros H. unfold commit. rewrite H. reflexivity. Qed.

Lemma step_fresh (v : variant) (e : event) (w : world) :
  fresh w -> fresh (step v e w).
Proof.
  intros [H1 H2]. unfold step.
  destruct (commit_frame v (handle v e w)) as (Hc & _ & Hn & _).
  destruct (handle_cases v e w) as [(Hs & Ha & Hl & _ & Hu)|H].
  - split.
    + intros a. rewrite Hc, Hn, Hs, Ha. apply H1.
    + intros m Hm. rewrite Hc.
      destruct (unmounted w) eqn:Huw.
      * rewrite commit_unmounted in Hm by congruence.
        rewrite Hs. apply H2. congruence.
      * eapply commit_deps; [|exact Hm]. congruence.
  - destruct H as (i & o & items & markers & c & it & _ & Hu & _ & _ & Hh).
    rewrite Hh in *.
    split.
    + intros a. rewrite Hc, Hn. simpl.
      destruct (collapses v w);
        simpl; intros E; injection E as <-; simpl; lia.
    + intros m Hm. rewrite Hc. eapply commit_deps; [|exact Hm]. exact Hu.
Qed.

Lemma mount_fresh (v : variant) (width : Z) : fresh (mount v width).
Proof. split; intros x; destruct v; cbn; discriminate. Qed.

Lemma run_fresh (v : variant) (es : list event) (w : world) :
  fresh w -> fresh (run v es w).
Proof.
  revert w. induction es as [|e es IH]; intros w H; simpl.
  - exact H.
  - apply IH. apply step_fresh. exact H.
Qed.

(** A dependency the effect saw earlier is never the array a click has
    just allocated. *)
Lemma fresh_array_differs (w : world) (m : mapInstance) (xy : Q * Q) :
  fresh w ->
  leaflet w = Some m ->
  sameValue (deps m) (Some {| addr := nextAddr w; elems := xy |}) = false.
Proof.
  intros [H1 H2] Hm. specialize (H2 m Hm).
  destruct (deps m) as [d|]; [|reflexivity].
  destruct (selectedCoords (comp w)) as [s|] eqn:Hs; simpl in H2;
    [|discriminate].
  apply Nat.eqb_eq in H2. specialize (H1 s eq_refl).
  simpl. apply Nat.eqb_neq. lia.
Qed.

(** One click on an entry on screen: one new array stored as the
    selection, one [flyTo] towards its coordinates. *)
Lemma click_once (v : variant) (w : world) (o : bool)
  (items : list listItem) (markers : list marker) (c : option coordsArray)
  (i : nat) (it : listItem) :
  fresh w ->
  unmounted w = false ->
  render v (comp w) = Ok (MainView o items markers c) ->
  nth_error items i = Some it ->
  let a := {| addr := nextAddr w; elems := itemCoords it |} in
  let w' := step v (ClickItem i) w in
  selectedCoords (comp w') = Some a /\
  calls w' = calls w ++ [SetSelectedCoords a; FlyTo (itemCoords it) 5] /\
  unmounted w' = false /\
  nextAddr w' = S (nextAddr w) /\
  render v (comp w')
    = Ok (MainView (sidebarOpen (comp w')) items markers (Some a)).
Proof.
  intros Hf Hu Hr Hi a w'.
  assert (Hh : handle v (ClickItem i) w = onClickItem v it w)
    by (eapply handle_click; eassumption).
  assert (Hsel : selectedCoords (comp (onClickItem v it w)) = Some a).
  { simpl. destruct (collapses v w);
      reflexivity. }
  assert (Hr' : render v (comp (onClickItem v it w))
                = Ok (MainView (sidebarOpen (comp (onClickItem v it w)))
                        items markers (Some a))).
  { rewrite <- Hsel. eapply render_main_frame; [exact Hr| | |];
      simpl; destruct (collapses v w);
      reflexivity. }
  destruct (commit_frame v (onClickItem v it w)) as (Hc & _ & Hn & _).
  unfold w', step. rewrite Hh, Hc, Hn.
  split; [exact Hsel|].
  split; [|split; [eapply commit_alive; [exact Hu|exact Hr']|
                   split; [reflexivity|exact Hr']]].
  unfold commit.
  replace (unmounted (onClickItem v it w)) with false by (symmetry; exact Hu).
  rewrite Hr'.
  replace (leaflet (onClickItem v it w)) with (leaflet w) by reflexivity.
  destruct (leaflet w) as [m|] eqn:Hm.
  - fold a in Hr'. unfold a at 1.
    rewrite (fresh_array_differs w m (itemCoords it) Hf Hm).
    simpl. rewrite <- app_assoc. reflexivity.
  - simpl. rewrite <- app_assoc. reflexivity.
Qed.

(** C6: in any state the view can reach, a click on a list entry stores
    exactly one new selection and calls [flyTo] exactly once, towards the
    entry's coordinates; a second click on the same entry does the same
    again, because each click allocates a new array. *)
Theorem selection_triggers_one_animation :
  forall (v : variant) (es : list event) (width : Z) (o : bool)
         (items : list listItem) (markers : list marker)
         (c : option coordsArray) (i : nat) (it : listItem),
    let w := run v es (mount v width) in
    unmounted w = false ->
    render v (comp w) = Ok (MainView o items markers c) ->
    nth_error items i = Some it ->
    let a1 := {| addr := nextAddr w; elems := itemCoords it |} in
    let a2 := {| addr := S (nextAddr w); elems := itemCoords it |} in
    let w1 := step v (ClickItem i) w in
    let w2 := step v (ClickItem i) w1 in
    selectedCoords (comp w1) = Some a1 /\
    calls w1 = calls w ++ [SetSelectedCoords a1; FlyTo (itemCoords it) 5] /\
    selectedCoords (comp w2) = Some a2 /\
    calls w2 = calls w1 ++ [SetSelectedCoords a2; FlyTo (itemCoords it) 5].
Proof.
  intros v es width o items markers c i it w Hu Hr Hi a1 a2 w1 w2.
  assert (Hf : fresh w) by (apply run_fresh, mount_fresh).
  destruct (click_once v w o items markers c i it Hf Hu Hr Hi)
    as (Hs1 & Hc1 & Hu1 & Hn1 & Hr1).
  assert (Hf1 : fresh (step v (ClickItem i) w)) by (apply step_fresh; exact Hf).
  destruct (click_once v _ _ items markers _ i it Hf1 Hu1 Hr1 Hi)
    as (Hs2 & Hc2 & _).
  rewrite Hn1 in Hs2, Hc2.
  repeat split; assumption.
Qed.

Lemma selection_triggers_one_animation_witness :
  calls (run Components
           [Settle (success sampleFeed); ClickItem 0; ClickItem 0]
           (mount Components 500))
  = [SetSelectedCoords {| addr := 0; elems := (38 # 1, 142 # 1)%Q |};
     FlyTo (38 # 1, 142 # 1)%Q 5;
     SetSelectedCoords {| addr := 1; elems := (38 # 1, 142 # 1)%Q |};
     FlyTo (38 # 1, 142 # 1)%Q 5].
Proof.
  pose proof (selection_triggers_one_animation Components
                [Settle (success sampleFeed)] 500 _ _ _ _ 0%nat _
                eq_refl eq_refl eq_refl) as (_ & H1 & _ & H2).
  cbv zeta in H1, H2. unfold run in *. simpl fold_left in *.
  rewrite H2, H1. reflexivity.
Defined.

(** ** The selection is never cleared *)

Lemma step_keeps_selection (v : variant) (e : event) (w : world) :
  (forall i, e <> ClickItem i) ->
  selectedCoords (comp (step v e w)) = selectedCoords (comp w).
Proof.
  intros He. rewrite step_comp.
  destruct (handle_cases v e w) as [(Hs & _)|H]; [exact Hs|].
  destruct H as (i & _ & _ & _ & _ & _ & E & _). exfalso. exact (He i E).
Qed.

Lemma step_never_clears (v : variant) (e : event) (w : world)
  (a : coordsArray) :
  selectedCoords (comp w) = Some a ->
  exists a', selectedCoords (comp (step v e w)) = Some a'.
Proof.
  intros Ha. rewrite step_comp.
  destruct (handle_cases v e w) as [(Hs & _)|H].
  - exists a. congruence.
  - destruct H as (i & o & items & markers & c & it & _ & _ & _ & _ & ->).
    eexists. simpl.
    destruct (collapses v w);
      reflexivity.
Qed.

Lemma commit_atRest (v : variant) (w : world) :
  selectedCoords (comp w) = None -> atRest w -> atRest (commit v w).
Proof.
  intros Hs [Hc Hm]. unfold commit.
  destruct (unmounted w); [split; assumption|].
  destruct (render v (comp w)) as [[|msg| |o items markers c]|ex] eqn:Hr;
    try (split; [exact Hc|simpl; discriminate]).
  destruct (render_main_inv _ _ _ _ _ _ Hr) as (_ & -> & _).
  rewrite Hs.
  destruct (leaflet w) as [m|] eqn:Hl.
  - destruct (sameValue (deps m) None).
    + split; [exact Hc|]. rewrite Hl. exact Hm.
    + split; [exact Hc|]. simpl. intros m' E. injection E as <-. simpl.
      apply Hm. reflexivity.
  - split; [exact Hc|]. simpl. intros m' E. injection E as <-. simpl.
    split; reflexivity.
Qed.

Lemma step_atRest (v : variant) (e : event) (w : world) :
  (selectedCoords (comp w) = None -> atRest w) ->
  selectedCoords (comp (step v e w)) = None -> atRest (step v e w).
Proof.
  intros Hw Hs. rewrite step_comp in Hs. unfold step.
  destruct (handle_cases v e w) as [(Hsel & _ & Hl & Hc & _)|H].
  - apply commit_atRest; [exact Hs|].
    rewrite Hsel in Hs. destruct (Hw Hs) as [Hc0 Hm0].
    split; [congruence|]. rewrite Hl. exact Hm0.
  - destruct H as (i & o & items & markers & c & it & _ & _ & _ & _ & Hh).
    rewrite Hh in Hs. simpl in Hs.
    destruct (collapses v w);
      discriminate.
Qed.

Lemma run_atRest (v : variant) (es : list event) (w : world) :
  (selectedCoords (comp w) = None -> atRest w) ->
  selectedCoords (comp (run v es w)) = None -> atRest (run v es w).
Proof.
  revert w. induction es as [|e es IH]; intros w Hw; simpl.
  - exact Hw.
  - apply IH. apply step_atRest. exact Hw.
Qed.

Lemma mount_atRest (v : variant) (width : Z) : atRest (mount v width).
Proof. split; [reflexivity|]. intros m. destruct v; cbn; discriminate. Qed.

(** C9: the selection starts empty; no event other than a click on a
    list entry changes it (refresh, retry, a request that ends well or
    badly, the sidebar button, a resize); once set it is never empty
    again; and as long as it is empty, whatever has happened, no [flyTo]
    has been called and the map, when shown, is at centre (20, 0) and
    zoom 2. *)
Theorem selection_persists_until_replaced :
  selectedCoords initialState = None /\
  (forall v width, selectedCoords (comp (mount v width)) = None) /\
  (forall v e w,
     (forall i, e <> ClickItem i) ->
     selectedCoords (comp (step v e w)) = selectedCoords (comp w)) /\
  (forall v e w a,
     selectedCoords (comp w) = Some a ->
     exists a', selectedCoords (comp (step v e w)) = Some a') /\
  (forall v es width,
     let w := run v es (mount v width) in
     selectedCoords (comp w) = None ->
     calls w = [] /\
     forall m, leaflet w = Some m ->
               center m = defaultCenter /\ zoom m = defaultZoom).
Proof.
  split; [reflexivity|].
  split; [intros v width; destruct v; reflexivity|].
  split; [exact step_keeps_selection|].
  split; [exact step_never_clears|].
  intros v es width w Hs.
  apply (run_atRest v es (mount v width)); [|exact Hs].
  intros _. apply mount_atRest.
Qed.

Lemma selection_persists_until_replaced_witness :
  (selectedCoords
     (comp (step Components ClickRefresh
              (run Components [Settle (success sampleFeed); ClickItem 0]
                 (mount Components 500))))
   = Some {| addr := 0; elems := (38 # 1, 142 # 1)%Q |}) /\
  calls (run Responsive browsing (mount Responsive 500)) = [] /\
  leaflet (run Responsive browsing (mount Responsive 500))
  = Some {| deps := None; center := defaultCenter; zoom := defaultZoom |}.
Proof.
  destruct selection_persists_until_replaced as (_ & _ & Hkeep & _ & Hrest).
  split.
  - rewrite (Hkeep Components ClickRefresh _); [reflexivity|].
    intros i; discriminate.
  - split.
    + apply (Hrest Responsive browsing 500). reflexivity.
    + reflexivity.
Defined.

(** * Further properties of the component *)

(** ** When a render throws *)

Lemma numeric_or_missing (eq : feature) : numeric eq \/ missing eq.
Proof.
  unfold numeric, missing. destruct (mag (props eq)) as [| |x].
  - right. intros x; discriminate.
  - right. intros x; discriminate.
  - left. eauto.
Qed.

Lemma Forall_numeric_or_Exists_missing (l : list feature) :
  Forall numeric l \/ Exists missing l.
Proof.
  induction l as [|eq l [IH|IH]].
  - left. constructor.
  - destruct (numeric_or_missing eq) as [H|H].
    + left. constructor; assumption.
    + right. apply Exists_cons_hd. exact H.
  - right. apply Exists_cons_tl. exact IH.
Qed.

Lemma mainView_numeric (st : state) :
  Forall numeric (earthquakes st) ->
  exists items markers,
    mainView st
      = Ok (MainView (sidebarOpen st) items markers (selectedCoords st)).
Proof.
  intros Hnum. unfold mainView.
  destruct (mapM_total renderItem (slice 0 10 (earthquakes st))) as [items Hi].
  { change 10 with (Z.of_nat 10). rewrite slice_prefix.
    apply Forall_firstn. eapply Forall_impl; [|exact Hnum].
    apply renderItem_numeric. }
  destruct (mapM_total renderMarker (earthquakes st)) as [markers Hm].
  { eapply Forall_impl; [|exact Hnum]. apply renderMarker_numeric. }
  exists items, markers. rewrite Hi, Hm. reflexivity.
Qed.

Lemma mainView_throws_iff (st : state) :
  (exists e, mainView st = Throw e) <-> Exists missing (earthquakes st).
Proof.
  split.
  - intros [e He].
    destruct (Forall_numeric_or_Exists_missing (earthquakes st)) as [H|H];
      [|exact H].
    destruct (mainView_numeric st H) as (items & markers & Hok).
    congruence.
  - intros H. apply Exists_exists in H. destruct H as (eq & Hin & Hm).
    eapply mainView_throws_on_missing_magnitude; eassumption.
Qed.

(** X1: on a collection that keeps the feed's schema (every event has
    its [geometry.coordinates] and its [properties], as [feature]
    requires), [MapView] throws while rendering in exactly one situation:
    it is not loading, has no error, and some event of the collection,
    whether among the first ten or not, has a magnitude that is not a
    number.  Events that break the schema make the destructuring of lines
    108-109 throw as well; they are outside this statement. *)
Theorem render_throws_exactly_on_missing_magnitude :
  forall (v : variant) (st : state),
    (exists e, render v st = Throw e) <->
    (loading st = false /\ error st = EmptyString /\
     Exists missing (earthquakes st)).
Proof.
  intros v st. unfold render. split.
  - intros [e He].
    destruct (loading st); [discriminate|].
    destruct (error st =? "")%string eqn:Ee; simpl in He; [|discriminate].
    apply String.eqb_eq in Ee.
    split; [reflexivity|]. split; [exact Ee|].
    apply mainView_throws_iff.
    destruct v; [eauto| |];
      (destruct (List.length (earthquakes st) =? 0)%nat;
       [discriminate|eauto]).
  - intros (Hl & Ee & Hm). rewrite Hl, Ee. simpl.
    assert (Hne : (List.length (earthquakes st) =? 0)%nat = false).
    { destruct (earthquakes st); [inversion Hm|reflexivity]. }
    rewrite Hne. apply mainView_throws_iff in Hm.
    destruct v; exact Hm.
Qed.

Lemma render_throws_exactly_on_missing_magnitude_witness :
  exists e,
    render Responsive
      (fetchEarthquakes_settle Responsive (success mixedFeed) initialState)
    = Throw e.
Proof.
  apply (proj2 (render_throws_exactly_on_missing_magnitude Responsive _)).
  split; [reflexivity|]. split; [reflexivity|].
  apply Exists_cons_hd. intros x; discriminate.
Defined.

(** ** The two colour scales *)

(** X2: the list colour, read as a tier, is the marker's tier with light
    folded into minor, for every magnitude value including null,
    undefined, NaN and the infinities; the two scales differ on the light
    tier and nowhere else. *)
Theorem list_tier_is_marker_tier_without_light :
  forall m : value,
    tierOfTextColor (listColor m)
    = match classify m with
      | light => minor
      | t => t
      end.
Proof.
  intros m. unfold classify, listColor, markerColor.
  destruct (ge m six); [reflexivity|].
  destruct (ge m four); [reflexivity|].
  destruct (ge m two); reflexivity.
Qed.

(** X3: a larger finite magnitude never gets a lower tier, on the markers
    and in the list. *)
Theorem tier_monotone_in_magnitude :
  forall p q : Q,
    (p <= q)%Q ->
    (tierRank (classify (Num (Finite p)))
     <= tierRank (classify (Num (Finite q))))%nat /\
    (tierRank (tierOfTextColor (listColor (Num (Finite p))))
     <= tierRank (tierOfTextColor (listColor (Num (Finite q)))))%nat.
Proof.
  intros p q Hpq. unfold classify.
  rewrite !markerColor_thresholds, !listColor_thresholds.
  pose proof (Qle_bool_cases 6 p) as P6. pose proof (Qle_bool_cases 4 p) as P4.
  pose proof (Qle_bool_cases 2 p) as P2. pose proof (Qle_bool_cases 6 q) as Q6.
  pose proof (Qle_bool_cases 4 q) as Q4. pose proof (Qle_bool_cases 2 q) as Q2.
  destruct (Qle_bool 6 p), (Qle_bool 4 p), (Qle_bool 2 p),
    (Qle_bool 6 q), (Qle_bool 4 q), (Qle_bool 2 q);
    simpl; split; try lia; exfalso; lra.
Qed.

Lemma tier_monotone_in_magnitude_witness :
  (tierRank (classify (Num (Finite (32 # 10))))
   <= tierRank (classify (Num (Finite (65 # 10)))))%nat.
Proof.
  apply (tier_monotone_in_magnitude (32 # 10) (65 # 10)).
  unfold Qle; simpl; lia.
Defined.

(** ** An entry and its marker *)

(** X4: when an event renders, its list entry and its marker carry the
    same key and the same magnitude text, and the coordinates a click on
    the entry selects are the marker's position: the feed's (longitude,
    latitude) pair swapped into (latitude, longitude). *)
Theorem entry_selects_its_marker_position :
  forall (eq : feature) (it : listItem) (mk : marker),
    renderItem eq = Ok it ->
    renderMarker eq = Ok mk ->
    itemCoords it = position mk /\
    position mk = (snd (coordinates eq), fst (coordinates eq)) /\
    itemKey it = markerKey mk /\
    itemMag it = popupMag mk.
Proof.
  intros eq it mk. unfold renderItem, renderMarker.
  destruct (coordinates eq) as [lo la].
  destruct (toFixed (mag (props eq))) as [t|e]; simpl; [|discriminate].
  intros Hi Hm. injection Hi as <-. injection Hm as <-. simpl.
  repeat split; reflexivity.
Qed.

Lemma entry_selects_its_marker_position_witness :
  exists it mk,
    renderItem (quake "a" (Num (Finite (65 # 10))) 100) = Ok it /\
    renderMarker (quake "a" (Num (Finite (65 # 10))) 100) = Ok mk /\
    itemCoords it = position mk.
Proof.
  eexists. eexists.
  split; [vm_compute; reflexivity|].
  split; [vm_compute; reflexivity|].
  apply (entry_selects_its_marker_position
           (quake "a" (Num (Finite (65 # 10))) 100));
    vm_compute; reflexivity.
Defined.

(** ** The stored order *)

Lemma sort_byTime_sorted_fixed (l : list feature) :
  StronglySorted newerFirst l -> sort byTime l = l.
Proof.
  induction 1 as [|x l Hs IH Hx]; [reflexivity|].
  cbn [sort]. rewrite IH.
  destruct l as [|y l']; [reflexivity|].
  cbn [insert].
  replace (0 <? byTime x y) with false; [reflexivity|].
  symmetry. apply Z.ltb_ge. unfold byTime.
  inversion Hx as [|? ? Hy _]; subst. unfold newerFirst in Hy. lia.
Qed.

(** X5: a feed that already arrives newest first is stored exactly as it
    came, and sorting a second time changes nothing: fetching the stored
    collection again gives back the stored collection. *)
Theorem sorted_feed_is_stored_as_is :
  (forall (v : variant) (st : state) (fs : list feature),
     StronglySorted newerFirst fs ->
     earthquakes (fetchEarthquakes_settle v (success fs) st) = fs) /\
  (forall (v : variant) (st : state) (fs : list feature),
     let st' := fetchEarthquakes_settle v (success fs) st in
     earthquakes (fetchEarthquakes_settle v (success (earthquakes st')) st')
     = earthquakes st').
Proof.
  split.
  - intros v st fs Hs. rewrite settle_success. cbn.
    apply sort_byTime_sorted_fixed. exact Hs.
  - intros v st fs st'. unfold st'. rewrite !settle_success. cbn.
    apply sort_byTime_sorted_fixed. apply sort_byTime_sorted.
Qed.

Lemma sorted_feed_is_stored_as_is_witness :
  earthquakes (fetchEarthquakes_settle Components (success longFeed)
                 initialState)
  = longFeed.
Proof.
  apply (proj1 sorted_feed_is_stored_as_is Components initialState longFeed).
  unfold longFeed, newerFirst.
  repeat (constructor; [|repeat (constructor; [simpl; lia|]); constructor]).
  constructor.
Defined.

(** What a handler does to the collection. *)
Lemma handle_collection (v : variant) (e : event) (w : world) :
  earthquakes (comp (handle v e w)) = earthquakes (comp w) \/
  exists fs, e = Settle (success fs) /\
             earthquakes (comp (handle v e w)) = sort byTime fs.
Proof.
  destruct e as [i| | | |r|width]; simpl;
    try (left;
         destruct (unmounted w); [reflexivity|];
         destruct (render v (comp w)) as [[|msg| |o items markers c]|ex];
         try reflexivity;
         try (destruct (nth_error items i); [|reflexivity];
              unfold onClickItem; simpl; destruct (collapses v w);
              reflexivity);
         try (destruct (hasToggle v && (innerWidth w <? 768));
              reflexivity);
         reflexivity).
  destruct (inFlight w); [left; reflexivity|]. simpl.
  destruct (unmounted w); [left; reflexivity|].
  destruct r as [|[|] [[[fs|]]|]];
    try (left; destruct v; reflexivity).
  right. exists fs. split; reflexivity.
Qed.

Lemma step_collection (v : variant) (e : event) (w : world) :
  earthquakes (comp (step v e w)) = earthquakes (comp w) \/
  exists fs, e = Settle (success fs) /\
             earthquakes (comp (step v e w)) = sort byTime fs.
Proof. rewrite step_comp. apply handle_collection. Qed.

(** X6: the stored collection changes only when a request ends in
    success, and then to the sorted feed; clicks, the sidebar button,
    refresh and retry, failed responses and resizes leave it as it is. *)
Theorem collection_changes_only_on_success :
  forall (v : variant) (e : event) (w : world),
    earthquakes (comp (step v e w)) = earthquakes (comp w) \/
    exists fs, e = Settle (success fs) /\
               earthquakes (comp (step v e w)) = sort byTime fs.
Proof.
  intros v e w. unfold step.
  destruct (commit_frame v (handle v e w)) as (Hc & _).
  rewrite Hc. apply handle_collection.
Qed.

Lemma run_invariant (v : variant) (P : world -> Prop) :
  (forall e w, P w -> P (step v e w)) ->
  forall es w, P w -> P (run v es w).
Proof.
  intros Hstep es. induction es as [|e es IH]; intros w Hw; simpl.
  - exact Hw.
  - apply IH. apply Hstep. exact Hw.
Qed.

Lemma run_sorted (v : variant) (es : list event) (width : Z) :
  StronglySorted newerFirst (earthquakes (comp (run v es (mount v width)))).
Proof.
  apply (run_invariant v
           (fun w => StronglySorted newerFirst (earthquakes (comp w)))).
  - intros e w Hw.
    destruct (step_collection v e w) as [->|(fs & _ & ->)];
      [exact Hw|apply sort_byTime_sorted].
  - destruct v; cbn; constructor.
Qed.

Lemma sorted_prefix_newer (l : list feature) (n : nat) (a b : feature) :
  StronglySorted newerFirst l ->
  In a (firstn n l) -> In b (skipn n l) -> newerFirst a b.
Proof.
  intros Hs. revert n. induction Hs as [|x l Hs IH Hx]; intros n Ha Hb.
  - destruct n; simpl in Ha; contradiction.
  - destruct n as [|n]; simpl in Ha, Hb; [contradiction|].
    destruct Ha as [<-|Ha].
    + rewrite Forall_forall in Hx. apply Hx.
      rewrite <- (firstn_skipn n l). apply in_or_app. right. exact Hb.
    + exact (IH n Ha Hb).
Qed.

(** C4: [slice(0, n)] is the prefix of length [min n (length l)] of the
    collection, whatever [n] and the collection are; when every magnitude
    is a number, the ready view lists the first ten events in stored
    order while the markers cover the whole collection, which the slice
    has left as it was; and in every state the view reaches the stored
    order is newest first, so that the ten listed events are the ten most
    recent: no event left out of the list is newer than a listed one. *)
Theorem list_is_prefix_of_collection :
  forall (A : Type) (l : list A) (n : nat),
    slice 0 (Z.of_nat n) l = firstn n l /\
    List.length (slice 0 (Z.of_nat n) l) = Nat.min n (List.length l) /\
    (exists rest, l = slice 0 (Z.of_nat n) l ++ rest) /\
    (forall (v : variant) (st : state),
       loading st = false ->
       error st = ""%string ->
       v = Components \/ earthquakes st <> [] ->
       Forall numeric (earthquakes st) ->
       exists items markers,
         render v st
           = Ok (MainView (sidebarOpen st) items markers (selectedCoords st)) /\
         map itemKey items = map fid (firstn 10 (earthquakes st)) /\
         List.length items = Nat.min 10 (List.length (earthquakes st)) /\
         map markerKey markers = map fid (earthquakes st)) /\
    (forall (v : variant) (es : list event) (width : Z) (o : bool)
            (items : list listItem) (markers : list marker)
            (c : option coordsArray),
       let stored := earthquakes (comp (run v es (mount v width))) in
       render v (comp (run v es (mount v width)))
         = Ok (MainView o items markers c) ->
       map itemKey items = map fid (slice 0 10 stored) /\
       map markerKey markers = map fid stored /\
       StronglySorted newerFirst stored /\
       forall a b,
         In a (slice 0 10 stored) -> In b (skipn 10 stored) ->
         time (props b) <= time (props a)).
Proof.
  intros A l n. rewrite slice_prefix.
  split; [reflexivity|].
  split; [apply length_firstn|].
  split; [exists (skipn n l); symmetry; apply firstn_skipn|].
  split.
  - intros v st Hl He Hv Hnum.
    assert (Hmain : render v st = mainView st).
    { unfold render. rewrite Hl, He. simpl.
      destruct v; [reflexivity| |];
        (destruct Hv as [Hv|Hv]; [discriminate|];
         destruct (earthquakes st); [contradiction|reflexivity]). }
    rewrite Hmain. unfold mainView.
    change 10 with (Z.of_nat 10). rewrite slice_prefix.
    destruct (mapM_total renderItem (firstn 10 (earthquakes st)))
      as [items Hi].
    { apply Forall_firstn. eapply Forall_impl; [|exact Hnum].
      apply renderItem_numeric. }
    destruct (mapM_total renderMarker (earthquakes st)) as [markers Hm].
    { eapply Forall_impl; [|exact Hnum]. apply renderMarker_numeric. }
    exists items, markers. rewrite Hi, Hm. simpl.
    split; [reflexivity|].
    pose proof (mapM_keys _ fid itemKey _ _ renderItem_key Hi) as Hk.
    split; [exact Hk|].
    split.
    + rewrite <- (length_map itemKey), Hk, length_map. apply length_firstn.
    + apply (mapM_keys _ fid markerKey _ _ renderMarker_key Hm).
  - intros v es width o items markers c stored Hr.
    destruct (render_main_inv _ _ _ _ _ _ Hr) as (_ & _ & Hm).
    unfold mainView in Hm. fold stored in Hm.
    destruct (mapM renderItem (slice 0 10 stored)) as [items'|e] eqn:Ei;
      simpl in Hm; [|discriminate].
    destruct (mapM renderMarker stored) as [markers'|e] eqn:Em;
      simpl in Hm; [|discriminate].
    injection Hm as _ -> -> _.
    split; [apply (mapM_keys _ fid itemKey _ _ renderItem_key Ei)|].
    split; [apply (mapM_keys _ fid markerKey _ _ renderMarker_key Em)|].
    assert (Hs : StronglySorted newerFirst stored) by apply run_sorted.
    split; [exact Hs|].
    change 10 with (Z.of_nat 10). rewrite slice_prefix.
    intros a b Ha Hb. exact (sorted_prefix_newer stored 10 a b Hs Ha Hb).
Qed.

Lemma list_is_prefix_of_collection_witness :
  (exists items markers,
     render Components
       (comp (run Components [Settle (success (rev longFeed))]
                (mount Components 1024)))
     = Ok (MainView false items markers None) /\
     List.length items = 10%nat /\
     List.length markers = 12%nat) /\
  time (props (quake "q" (Num (Finite 2)) 2))
  <= time (props (quake "q" (Num (Finite 3)) 3)).
Proof.
  destruct (list_is_prefix_of_collection feature longFeed 10)
    as (_ & _ & _ & Hready & Hrecent).
  destruct (Hready Components
              (comp (run Components [Settle (success (rev longFeed))]
                       (mount Components 1024)))
              eq_refl eq_refl (or_introl eq_refl))
    as (items & markers & Hr & _ & Hlen & Hk).
  { vm_compute.
    repeat (constructor; [eexists; reflexivity|]). constructor. }
  split.
  - exists items, markers.
    split; [exact Hr|].
    split; [exact Hlen|].
    rewrite <- (length_map markerKey), Hk. reflexivity.
  - destruct (Hrecent Components [Settle (success (rev longFeed))] 1024
                _ _ _ _ Hr) as (_ & _ & _ & H).
    apply (H (quake "q" (Num (Finite 3)) 3) (quake "q" (Num (Finite 2)) 2)).
    + vm_compute. do 9 right. left. reflexivity.
    + vm_compute. left. reflexivity.
Defined.

(** X7: in every state the view can reach, the stored collection is in
    descending order of time, so that the ten events of the list are the
    ten most recent: none of the events left out of the list is newer
    than one that is in it. *)
Theorem list_shows_the_most_recent :
  forall (v : variant) (es : list event) (width : Z) (a b : feature),
    let stored := earthquakes (comp (run v es (mount v width))) in
    StronglySorted newerFirst stored /\
    (In a (slice 0 10 stored) -> In b (skipn 10 stored) ->
     time (props b) <= time (props a)).
Proof.
  intros v es width a b stored.
  assert (Hs : StronglySorted newerFirst stored) by apply run_sorted.
  split; [exact Hs|].
  change 10 with (Z.of_nat 10). rewrite slice_prefix.
  intros Ha Hb. exact (sorted_prefix_newer stored 10 a b Hs Ha Hb).
Qed.

Lemma list_shows_the_most_recent_witness :
  time (props (quake "q" (Num (Finite 1)) 1))
  <= time (props (quake "q" (Num (Finite 12)) 12)).
Proof.
  refine (proj2 (list_shows_the_most_recent Components
                   [Settle (success longFeed)] 1024
                   (quake "q" (Num (Finite 12)) 12)
                   (quake "q" (Num (Finite 1)) 1)) _ _).
  - vm_compute. left. reflexivity.
  - vm_compute. right. left. reflexivity.
Defined.

(** ** Requests and the loading view *)

Lemma commit_unmounted_false (v : variant) (w : world) :
  unmounted (commit v w) = false -> unmounted w = false.
Proof.
  unfold commit. destruct (unmounted w) eqn:Hu; [intros H; congruence|].
  reflexivity.
Qed.

Lemma handle_unmounted (v : variant) (e : event) (w : world) :
  unmounted (handle v e w) = unmounted w.
Proof.
  destruct (handle_cases v e w) as [(_ & _ & _ & _ & H)|H]; [exact H|].
  destruct H as (i & o & items & markers & c & it & _ & _ & _ & _ & ->).
  reflexivity.
Qed.

Lemma handle_oneRequest (v : variant) (e : event) (w : world) :
  oneRequest w -> oneRequest (handle v e w).
Proof.
  unfold oneRequest. rewrite handle_unmounted. intros Hw Hu.
  specialize (Hw Hu).
  destruct e as [i| | | |r|width]; simpl; rewrite ?Hu.
  - destruct (render v (comp w)) as [[|msg| |o items markers c]|ex];
      try exact Hw.
    destruct (nth_error items i); [|exact Hw].
    unfold onClickItem; simpl. destruct (collapses v w); exact Hw.
  - destruct (render v (comp w)) as [[|msg| |o items markers c]|ex];
      try exact Hw.
    destruct (hasToggle v && (innerWidth w <? 768)); exact Hw.
  - destruct (render v (comp w)) as [[|msg| |o items markers c]|ex] eqn:Hr;
      try exact Hw.
    destruct Hw as [[Hl _]|[_ Hn]].
    + rewrite (render_loading v _ Hl) in Hr. discriminate.
    + left. simpl. rewrite Hn. split; reflexivity.
  - destruct (render v (comp w)) as [[|msg| |o items markers c]|ex] eqn:Hr;
      try exact Hw.
    destruct Hw as [[Hl _]|[_ Hn]].
    + rewrite (render_loading v _ Hl) in Hr. discriminate.
    + left. simpl. rewrite Hn. split; reflexivity.
  - destruct (inFlight w) as [|n] eqn:Hn; [rewrite Hn; exact Hw|].
    simpl. right.
    destruct Hw as [[_ H1]|[_ H0]]; [|discriminate].
    injection H1 as ->. split; reflexivity.
  - exact Hw.
Qed.

Lemma step_oneRequest (v : variant) (e : event) (w : world) :
  oneRequest w -> oneRequest (step v e w).
Proof.
  intros Hw. unfold step.
  pose proof (handle_oneRequest v e w Hw) as Hh.
  unfold oneRequest in *. intros Hu.
  destruct (commit_frame v (handle v e w)) as (Hc & _ & _ & Hn).
  rewrite Hc, Hn. apply Hh. apply (commit_unmounted_false v). exact Hu.
Qed.

Lemma mount_oneRequest (v : variant) (width : Z) :
  oneRequest (mount v width).
Proof. intros _. left. destruct v; split; reflexivity. Qed.

(** X8: in every state the view can reach and that has not crashed,
    at most one request is in flight, and the loading view is on screen
    exactly while it is: the buttons that start a request are not
    rendered during loading, so two requests never overlap. *)
Theorem one_request_at_a_time :
  forall (v : variant) (es : list event) (width : Z),
    let w := run v es (mount v width) in
    unmounted w = false ->
    (inFlight w = 1%nat /\ render v (comp w) = Ok LoadingView) \/
    (inFlight w = 0%nat /\ render v (comp w) <> Ok LoadingView).
Proof.
  intros v es width w Hu.
  assert (H : oneRequest w).
  { apply run_invariant; [apply step_oneRequest|apply mount_oneRequest]. }
  destruct (H Hu) as [[Hl Hn]|[Hl Hn]].
  - left. split; [exact Hn|apply render_loading; exact Hl].
  - right. split; [exact Hn|]. unfold render. rewrite Hl.
    destruct (negb (error (comp w) =? "")%string); [discriminate|].
    unfold mainView.
    destruct v;
      try (destruct (List.length (earthquakes (comp w)) =? 0)%nat;
           [discriminate|]);
      destruct (mapM renderItem _); simpl; try discriminate;
      destruct (mapM renderMarker _); simpl; discriminate.
Qed.

Lemma one_request_at_a_time_witness :
  inFlight (run Components
              [Settle (success sampleFeed); ClickRefresh; Resize 400]
              (mount Components 1024)) = 1%nat.
Proof.
  destruct (one_request_at_a_time Components
              [Settle (success sampleFeed); ClickRefresh; Resize 400] 1024
              eq_refl) as [[H _]|[_ H]].
  - exact H.
  - exfalso. apply H. reflexivity.
Defined.

(** ** After a render has thrown *)

Lemma step_unmounted (v : variant) (e : event) (w : world) :
  unmounted w = true ->
  unmounted (step v e w) = true /\
  comp (step v e w) = comp w /\
  calls (step v e w) = calls w /\
  leaflet (step v e w) = leaflet w.
Proof.
  intros Hu. unfold step.
  rewrite commit_unmounted by (rewrite handle_unmounted; exact Hu).
  rewrite handle_unmounted.
  split; [exact Hu|].
  destruct e as [i| | | |r|width]; simpl; rewrite ?Hu; auto.
  destruct (inFlight w); simpl; rewrite ?Hu; auto.
Qed.

(** ** The map and the camera *)

Lemma commit_sync (v : variant) (h : world) :
  unmounted h = false ->
  (forall m, leaflet h = Some m ->
     (deps m = selectedCoords (comp h) /\
      cameraAt (selectedCoords (comp h)) m) \/
     (sameValue (deps m) (selectedCoords (comp h)) = false /\
      selectedCoords (comp h) <> None)) ->
  inSync (commit v h) /\ mapShown v (commit v h).
Proof.
  intros Hu Hm. unfold commit. rewrite Hu.
  destruct (render v (comp h)) as [[|msg| |o items markers c]|ex] eqn:Hr.
  - split; [intros m; simpl; discriminate|].
    intros _. simpl. rewrite Hr. reflexivity.
  - split; [intros m; simpl; discriminate|].
    intros _. simpl. rewrite Hr. reflexivity.
  - split; [intros m; simpl; discriminate|].
    intros _. simpl. rewrite Hr. reflexivity.
  - destruct (render_main_inv _ _ _ _ _ _ Hr) as (_ & -> & _).
    destruct (leaflet h) as [m0|] eqn:Hl.
    + destruct (sameValue (deps m0) (selectedCoords (comp h))) eqn:Hs.
      * split.
        -- intros m E. rewrite Hl in E. injection E as <-.
           destruct (Hm m0 eq_refl) as [H|[H _]]; [exact H|congruence].
        -- intros _. rewrite Hr, Hl. discriminate.
      * destruct (selectedCoords (comp h)) as [a|] eqn:Hc.
        -- split.
           ++ intros m E. simpl in E. injection E as <-. simpl.
              rewrite Hc. simpl. auto.
           ++ intros _. simpl. rewrite Hr. discriminate.
        -- exfalso. destruct (Hm m0 eq_refl) as [[H _]|[_ H]].
           ++ rewrite H in Hs. discriminate.
           ++ apply H. reflexivity.
    + destruct (selectedCoords (comp h)) as [a|] eqn:Hc.
      * split.
        -- intros m E. simpl in E. injection E as <-. simpl.
           rewrite Hc. simpl. auto.
        -- intros _. simpl. rewrite Hr. discriminate.
      * split.
        -- intros m E. simpl in E. injection E as <-. simpl.
           rewrite Hc. simpl. auto.
        -- intros _. simpl. rewrite Hr. discriminate.
  - split; [intros m; simpl; discriminate|].
    intros H. simpl in H. discriminate.
Qed.

Lemma step_stable (v : variant) (e : event) (w : world) :
  stable v w -> stable v (step v e w).
Proof.
  intros (Hf & Hs & Hm). split; [apply step_fresh; exact Hf|].
  destruct (unmounted w) eqn:Hu.
  - destruct (step_unmounted v e w Hu) as (Hu' & Hc & _ & Hl).
    split.
    + intros m. rewrite Hl, Hc. apply Hs.
    + intros H. congruence.
  - unfold step. apply commit_sync.
    + rewrite handle_unmounted. exact Hu.
    + intros m Hl.
      destruct (handle_cases v e w) as [(Hsel & _ & Hlw & _)|H].
      * left. rewrite Hsel. apply Hs. congruence.
      * destruct H as (i & o & items & markers & c & it & _ & _ & _ & _ & Hh).
        right. rewrite Hh in *.
        replace (selectedCoords (comp (onClickItem v it w)))
          with (Some {| addr := nextAddr w; elems := itemCoords it |})
          by (unfold onClickItem; simpl; destruct (collapses v w);
              reflexivity).
        split; [|discriminate].
        apply fresh_array_differs; [exact Hf|exact Hl].
Qed.

Lemma mount_stable (v : variant) (width : Z) : stable v (mount v width).
Proof.
  split; [apply mount_fresh|].
  split.
  - intros m. destruct v; cbn; discriminate.
  - intros _. destruct v; reflexivity.
Qed.

Lemma run_stable (v : variant) (es : list event) (width : Z) :
  stable v (run v es (mount v width)).
Proof.
  apply run_invariant; [apply step_stable|apply mount_stable].
Qed.

(** X10: whenever the map is on screen, the camera the component has
    asked for is determined by the selection: the initial view of
    [MapContainer], centre (20, 0) and zoom 2, while nothing is selected,
    and otherwise the destination of a [flyTo] to the selected
    coordinates at zoom 5; and the dependency the effect last ran with is
    the current selection.  This is about the component's own camera
    commands: the 1.5 seconds of a flight and what the user does by wheel
    or drag ([scrollWheelZoom] is on) are not covered. *)
Theorem camera_follows_selection :
  forall (v : variant) (es : list event) (width : Z) (m : mapInstance),
    let w := run v es (mount v width) in
    leaflet w = Some m ->
    match selectedCoords (comp w) with
    | None => center m = defaultCenter /\ zoom m = 2
    | Some a => center m = elems a /\ zoom m = 5
    end /\
    deps m = selectedCoords (comp w).
Proof.
  intros v es width m w Hl.
  destruct (run_stable v es width) as (_ & Hs & _).
  destruct (Hs m Hl) as [Hd Hc]. split; [exact Hc|exact Hd].
Qed.

Lemma camera_follows_selection_witness :
  exists m,
    leaflet (run Responsive
               [Settle (success sampleFeed); ClickItem 1; ClickRefresh;
                Settle (success sampleFeed)]
               (mount Responsive 500)) = Some m /\
    center m = (38 # 1, 142 # 1)%Q /\ zoom m = 5.
Proof.
  eexists. split; [vm_compute; reflexivity|].
  refine (proj1 (camera_follows_selection Responsive
                   [Settle (success sampleFeed); ClickItem 1; ClickRefresh;
                    Settle (success sampleFeed)] 500 _ _)).
  vm_compute. reflexivity.
Defined.

(** ** Refresh and the camera *)

Lemma sort_byTime_numeric (fs : list feature) :
  Forall numeric fs -> Forall numeric (sort byTime fs).
Proof.
  intros H. eapply Permutation_Forall; [apply sort_byTime_perm|exact H].
Qed.

Lemma sort_byTime_nonempty (fs : list feature) :
  fs <> [] -> sort byTime fs <> [].
Proof.
  intros H E. apply H. apply Permutation_nil.
  apply Permutation_sym. rewrite <- E. apply sort_byTime_perm.
Qed.

Lemma render_ready_main (v : variant) (st : state) :
  loading st = false ->
  error st = EmptyString ->
  v = Components \/ earthquakes st <> [] ->
  Forall numeric (earthquakes st) ->
  exists items markers,
    render v st
      = Ok (MainView (sidebarOpen st) items markers (selectedCoords st)).
Proof.
  intros Hl He Hv Hnum.
  destruct (mainView_numeric st Hnum) as (items & markers & Hm).
  exists items, markers. unfold render. rewrite Hl, He. simpl.
  destruct v; [exact Hm| |];
    (destruct Hv as [Hv|Hv]; [discriminate|];
     destruct (earthquakes st); [contradiction|exact Hm]).
Qed.

(** X12: a refresh replays the animation.  With an event selected and
    the main layout on screen, the refresh click takes the map out of the
    tree while the request runs; when the response brings a collection
    that renders, the map is mounted anew and [flyTo] is called once more
    towards the selection made before the refresh, although nothing was
    clicked. *)
Theorem refresh_flies_to_selection_again :
  forall (v : variant) (w : world) (o : bool) (items : list listItem)
         (markers : list marker) (a : coordsArray) (fs : list feature),
    unmounted w = false ->
    render v (comp w) = Ok (MainView o items markers (Some a)) ->
    Forall numeric fs ->
    v = Components \/ fs <> [] ->
    let w1 := step v ClickRefresh w in
    let w2 := step v (Settle (success fs)) w1 in
    render v (comp w1) = Ok LoadingView /\
    leaflet w1 = None /\
    calls w1 = calls w /\
    selectedCoords (comp w2) = Some a /\
    calls w2 = calls w ++ [FlyTo (elems a) 5] /\
    leaflet w2
      = Some {| deps := Some a; center := elems a; zoom := 5 |}.
Proof.
  intros v w o items markers a fs Hu Hr Hnum Hv w1 w2.
  destruct (render_main_inv _ _ _ _ _ _ Hr) as (_ & Hsel & _).
  assert (Hr1 : render v (comp (startFetch w)) = Ok LoadingView)
    by (apply render_loading; reflexivity).
  assert (E1 : w1 = withLeaflet None (startFetch w)).
  { unfold w1, step. simpl handle. rewrite Hu, Hr.
    unfold commit.
    replace (unmounted (startFetch w)) with false by (symmetry; exact Hu).
    rewrite Hr1. reflexivity. }
  set (st2 := fetchEarthquakes_settle v (success fs) (comp w1)).
  assert (Hst2 : st2 = setLoading false
                         (setError "" (setEarthquakes (sort byTime fs)
                                         (comp w1))))
    by apply settle_success.
  destruct (render_ready_main v st2) as (items2 & markers2 & Hr2).
  { rewrite Hst2. reflexivity. }
  { rewrite Hst2. reflexivity. }
  { rewrite Hst2. cbn [earthquakes setLoading setError setEarthquakes].
    destruct Hv as [Hv|Hv]; [left; exact Hv|].
    right. apply sort_byTime_nonempty. exact Hv. }
  { rewrite Hst2. cbn [earthquakes setLoading setError setEarthquakes].
    apply sort_byTime_numeric. exact Hnum. }
  assert (Hsel2 : selectedCoords st2 = Some a).
  { rewrite Hst2, E1. simpl. symmetry. exact Hsel. }
  rewrite Hsel2 in Hr2.
  split; [rewrite E1; exact Hr1|].
  split; [rewrite E1; reflexivity|].
  split; [rewrite E1; reflexivity|].
  unfold w2, step. rewrite commit_comp.
  assert (Hh : handle v (Settle (success fs)) w1
               = {| comp := st2;
                    innerWidth := innerWidth w;
                    nextAddr := nextAddr w;
                    leaflet := None;
                    calls := calls w;
                    inFlight := inFlight w;
                    unmounted := false |}).
  { unfold st2. rewrite E1. simpl. rewrite Hu. reflexivity. }
  rewrite Hh. cbn [comp].
  split; [exact Hsel2|].
  unfold commit. cbn [unmounted comp leaflet]. rewrite Hr2.
  split; reflexivity.
Qed.

Lemma refresh_flies_to_selection_again_witness :
  calls (run Components
           [Settle (success sampleFeed); ClickItem 0; ClickRefresh;
            Settle (success longFeed)]
           (mount Components 500))
  = [SetSelectedCoords {| addr := 0; elems := (38 # 1, 142 # 1)%Q |};
     FlyTo (38 # 1, 142 # 1)%Q 5;
     FlyTo (38 # 1, 142 # 1)%Q 5].
Proof.
  pose proof (refresh_flies_to_selection_again Components
                (run Components [Settle (success sampleFeed); ClickItem 0]
                   (mount Components 500))
                _ _ _ {| addr := 0; elems := (38 # 1, 142 # 1)%Q |} longFeed
                eq_refl eq_refl longFeed_numeric (or_introl eq_refl))
    as (_ & _ & _ & _ & H & _).
  exact H.
Defined.

(** ** Rendering again *)

(** X13: committing twice is committing once: a render that follows
    another without a change of state mounts nothing, moves no camera and
    calls no [flyTo]. *)
Theorem commit_idempotent :
  forall (v : variant) (w : world), commit v (commit v w) = commit v w.
Proof.
  intros v w. unfold commit at 2 3.
  destruct (unmounted w) eqn:Hu; [apply commit_unmounted; exact Hu|].
  destruct (render v (comp w)) as [[|msg| |o items markers c]|ex] eqn:Hr.
  - unfold commit. cbn [unmounted comp leaflet withLeaflet].
    rewrite Hu, Hr. reflexivity.
  - unfold commit. cbn [unmounted comp leaflet withLeaflet].
    rewrite Hu, Hr. reflexivity.
  - unfold commit. cbn [unmounted comp leaflet withLeaflet].
    rewrite Hu, Hr. reflexivity.
  - destruct (leaflet w) as [m|] eqn:Hl.
    + destruct (sameValue (deps m) c) eqn:Hs.
      * unfold commit. rewrite Hu, Hr, Hl, Hs. reflexivity.
      * destruct c as [a|]; unfold commit, flyToEffect;
          cbn [unmounted comp leaflet withLeaflet recordCall deps];
          rewrite Hu, Hr; cbn [sameValue]; rewrite ?Nat.eqb_refl;
          reflexivity.
    + destruct c as [a|]; unfold commit, flyToEffect;
        cbn [unmounted comp leaflet withLeaflet recordCall deps];
        rewrite Hu, Hr; cbn [sameValue]; rewrite ?Nat.eqb_refl;
        reflexivity.
  - apply commit_unmounted. reflexivity.
Qed.

(** ** The sidebar flag *)

Lemma handle_width (v : variant) (e : event) (w : world) :
  innerWidth (handle v e w)
  = match e with Resize width => width | _ => innerWidth w end.
Proof.
  destruct e as [i| | | |r|width]; simpl; try reflexivity;
    try (destruct (unmounted w); [reflexivity|];
         destruct (render v (comp w)) as [[|msg| |o items markers c]|ex];
         try reflexivity;
         try (destruct (nth_error items i); reflexivity);
         try (destruct (hasToggle v && (innerWidth w <? 768));
              reflexivity)).
  destruct (inFlight w); reflexivity.
Qed.

Lemma handle_sidebar_closed (v : variant) (e : event) (w : world) :
  v = Plain \/ 768 <= innerWidth w ->
  sidebarOpen (comp w) = false ->
  sidebarOpen (comp (handle v e w)) = false.
Proof.
  intros Hv Hs.
  assert (Ht : hasToggle v && (innerWidth w <? 768) = false).
  { destruct Hv as [->|Hw]; [reflexivity|].
    replace (innerWidth w <? 768) with false
      by (symmetry; apply Z.ltb_ge; exact Hw).
    apply andb_false_r. }
  destruct e as [i| | | |r|width]; simpl.
  - destruct (unmounted w); [exact Hs|].
    destruct (render v (comp w)) as [[|msg| |o items markers c]|ex];
      try exact Hs.
    destruct (nth_error items i); [|exact Hs].
    unfold onClickItem; simpl. destruct (collapses v w); [reflexivity|exact Hs].
  - destruct (unmounted w); [exact Hs|].
    destruct (render v (comp w)) as [[|msg| |o items markers c]|ex];
      try exact Hs.
    rewrite Ht. exact Hs.
  - destruct (unmounted w); [exact Hs|].
    destruct (render v (comp w)) as [[|msg| |o items markers c]|ex];
      exact Hs.
  - destruct (unmounted w); [exact Hs|].
    destruct (render v (comp w)) as [[|msg| |o items markers c]|ex];
      exact Hs.
  - destruct (inFlight w); [exact Hs|]. simpl.
    destruct (unmounted w); [exact Hs|].
    unfold fetchEarthquakes_settle. destruct (received v r); exact Hs.
  - exact Hs.
Qed.

Lemma run_sidebar_closed (v : variant) (es : list event) (w : world) :
  v = Plain \/ (768 <= innerWidth w /\ wideOnly es) ->
  sidebarOpen (comp w) = false ->
  sidebarOpen (comp (run v es w)) = false.
Proof.
  revert w. induction es as [|e es IH]; intros w Hv Hs; simpl.
  - exact Hs.
  - apply IH.
    + destruct Hv as [Hv|[Hw Hes]]; [left; exact Hv|].
      right. inversion Hes as [|? ? He Hes']; subst.
      split; [|exact Hes'].
      unfold step. rewrite (proj1 (proj2 (commit_frame v _))), handle_width.
      destruct e; try exact Hw. exact He.
    + rewrite step_comp. apply handle_sidebar_closed; [|exact Hs].
      destruct Hv as [Hv|[Hw _]]; [left; exact Hv|right; exact Hw].
Qed.

(** X14: on a window that is 768 pixels wide or more from the start and
    through every resize, the sidebar flag never leaves its initial
    value false, whatever is clicked: the button that opens it is hidden
    there.  In the variant without a sidebar the flag never changes at
    any width. *)
Theorem sidebar_stays_closed_on_wide_window :
  forall (v : variant) (es : list event) (width : Z),
    v = Plain \/ (768 <= width /\ wideOnly es) ->
    sidebarOpen (comp (run v es (mount v width))) = false.
Proof.
  intros v es width Hv. apply run_sidebar_closed.
  - destruct Hv as [Hv|[Hw Hes]]; [left; exact Hv|].
    right. split; [|exact Hes]. destruct v; exact Hw.
  - destruct v; reflexivity.
Qed.

Lemma sidebar_stays_closed_on_wide_window_witness :
  sidebarOpen
    (comp (run Responsive
             [Settle (success sampleFeed); ClickToggle; ClickItem 0;
              Resize 900; ClickToggle]
             (mount Responsive 1024))) = false.
Proof.
  apply (sidebar_stays_closed_on_wide_window Responsive
           [Settle (success sampleFeed); ClickToggle; ClickItem 0;
            Resize 900; ClickToggle] 1024).
  right. split; [lia|].
  repeat constructor. simpl. lia.
Defined.

Lemma withComp_toggle_twice (w : world) :
  withComp (setSidebarOpen (negb (negb (sidebarOpen (comp w)))))
    (withComp (setSidebarOpen (negb (sidebarOpen (comp w)))) w)
  = w.
Proof.
  destruct w as [[eqs l er sel o] iw na lf cs fl um].
  unfold withComp, setSidebarOpen; simpl. rewrite negb_involutive.
  reflexivity.
Qed.

Lemma step_toggle (v : variant) (w : world) (o : bool)
  (items : list listItem) (markers : list marker) (c : option coordsArray) :
  stable v w ->
  unmounted w = false ->
  hasToggle v = true ->
  innerWidth w < 768 ->
  render v (comp w) = Ok (MainView o items markers c) ->
  step v ClickToggle w
  = withComp (setSidebarOpen (negb (sidebarOpen (comp w)))) w.
Proof.
  intros (_ & Hs & Hm) Hu Ht Hw Hr.
  unfold step. simpl handle. rewrite Hu, Hr, Ht.
  replace (innerWidth w <? 768) with true
    by (symmetry; apply Z.ltb_lt; exact Hw).
  simpl andb. cbv iota.
  set (w' := withComp (setSidebarOpen (negb (sidebarOpen (comp w)))) w).
  assert (Hr' : render v (comp w')
                = Ok (MainView (sidebarOpen (comp w')) items markers
                        (selectedCoords (comp w'))))
    by (eapply render_main_frame; [exact Hr| | |]; reflexivity).
  specialize (Hm Hu). rewrite Hr in Hm.
  destruct (leaflet w) as [m|] eqn:Hl; [|contradiction].
  destruct (Hs m Hl) as [Hd _].
  unfold commit.
  replace (unmounted w') with false by (symmetry; exact Hu).
  rewrite Hr'.
  replace (leaflet w') with (Some m) by (symmetry; exact Hl).
  replace (selectedCoords (comp w')) with (selectedCoords (comp w))
    by reflexivity.
  rewrite Hd, sameValue_refl. reflexivity.
Qed.

(** X15: with the main layout on screen below 768 pixels, the sidebar
    button flips the flag and touches nothing else; pressing it twice
    brings back the very state the view was in, camera and call record
    included. *)
Theorem toggle_twice_restores :
  forall (v : variant) (es : list event) (width : Z) (o : bool)
         (items : list listItem) (markers : list marker)
         (c : option coordsArray),
    let w := run v es (mount v width) in
    unmounted w = false ->
    hasToggle v = true ->
    innerWidth w < 768 ->
    render v (comp w) = Ok (MainView o items markers c) ->
    step v ClickToggle w
      = withComp (setSidebarOpen (negb (sidebarOpen (comp w)))) w /\
    step v ClickToggle (step v ClickToggle w) = w.
Proof.
  intros v es width o items markers c w Hu Ht Hw Hr.
  assert (Hst : stable v w) by apply run_stable.
  pose proof (step_toggle v w o items markers c Hst Hu Ht Hw Hr) as H1.
  split; [exact H1|].
  assert (Hst1 : stable v (step v ClickToggle w))
    by (apply step_stable; exact Hst).
  rewrite (step_toggle v (step v ClickToggle w)
             (negb (sidebarOpen (comp w))) items markers
             (selectedCoords (comp w)) Hst1).
  - rewrite H1. apply withComp_toggle_twice.
  - rewrite H1. exact Hu.
  - exact Ht.
  - rewrite H1. exact Hw.
  - rewrite H1.
    exact (render_main_frame v (comp w)
             (comp (withComp (setSidebarOpen (negb (sidebarOpen (comp w)))) w))
             o items markers c Hr eq_refl eq_refl eq_refl).
Qed.

Lemma toggle_twice_restores_witness :
  sidebarOpen
    (comp (step Components ClickToggle
             (run Components [Settle (success sampleFeed); ClickItem 2]
                (mount Components 500)))) = true.
Proof.
  rewrite (proj1 (toggle_twice_restores Components
                    [Settle (success sampleFeed); ClickItem 2] 500
                    _ _ _ _ eq_refl eq_refl eq_refl eq_refl)).
  reflexivity.
Defined.

(** ** Entries, markers and clicks *)

Lemma mapM_nth {A B} (f : A -> result B) (l : list A) (ys : list B)
  (i : nat) (x : A) :
  mapM f l = Ok ys ->
  nth_error l i = Some x ->
  exists y, nth_error ys i = Some y /\ f x = Ok y.
Proof.
  revert ys i. induction l as [|z l IH]; intros ys i H Hx.
  - destruct i; discriminate.
  - simpl in H. destruct (f z) as [y|e] eqn:Ef; simpl in H; [|discriminate].
    destruct (mapM f l) as [zs|e] eqn:Em; simpl in H; [|discriminate].
    injection H as <-. destruct i as [|i]; simpl in *.
    + injection Hx as <-. eauto.
    + exact (IH zs i eq_refl Hx).
Qed.

Lemma mapM_nth_inv {A B} (f : A -> result B) (l : list A) (ys : list B)
  (i : nat) (y : B) :
  mapM f l = Ok ys ->
  nth_error ys i = Some y ->
  exists x, nth_error l i = Some x /\ f x = Ok y.
Proof.
  revert ys i. induction l as [|z l IH]; intros ys i H Hy.
  - simpl in H. injection H as <-. destruct i; discriminate.
  - simpl in H. destruct (f z) as [y0|e] eqn:Ef; simpl in H; [|discriminate].
    destruct (mapM f l) as [zs|e] eqn:Em; simpl in H; [|discriminate].
    injection H as <-. destruct i as [|i]; simpl in *.
    + injection Hy as <-. eauto.
    + exact (IH zs i eq_refl Hy).
Qed.

Lemma nth_error_firstn_Some {A} (n i : nat) (l : list A) (x : A) :
  nth_error (firstn n l) i = Some x -> nth_error l i = Some x.
Proof.
  revert i l. induction n as [|n IH]; intros i l H.
  - destruct i; discriminate.
  - destruct l as [|z l]; [destruct i; discriminate|].
    destruct i as [|i]; simpl in *; [exact H|apply IH; exact H].
Qed.

(** X16: in the main layout the i-th entry of the list and the i-th
    marker of the map show the same event: same key, same magnitude
    text, and the entry's click target is that marker's position. *)
Theorem entry_and_marker_correspond :
  forall (v : variant) (st : state) (o : bool) (items : list listItem)
         (markers : list marker) (c : option coordsArray) (i : nat)
         (it : listItem),
    render v st = Ok (MainView o items markers c) ->
    nth_error items i = Some it ->
    exists (eq : feature) (mk : marker),
      nth_error (earthquakes st) i = Some eq /\
      nth_error markers i = Some mk /\
      itemKey it = fid eq /\
      markerKey mk = fid eq /\
      position mk = itemCoords it /\
      popupMag mk = itemMag it.
Proof.
  intros v st o items markers c i it Hr Hi.
  destruct (render_main_inv _ _ _ _ _ _ Hr) as (_ & _ & Hm).
  unfold mainView in Hm.
  destruct (mapM renderItem (slice 0 10 (earthquakes st))) as [items'|e]
    eqn:Ei; simpl in Hm; [|discriminate].
  destruct (mapM renderMarker (earthquakes st)) as [markers'|e] eqn:Em;
    simpl in Hm; [|discriminate].
  injection Hm as _ -> -> _.
  destruct (mapM_nth_inv _ _ _ _ _ Ei Hi) as (eq & Hq & Hri).
  change 10 with (Z.of_nat 10) in Hq. rewrite slice_prefix in Hq.
  apply nth_error_firstn_Some in Hq.
  destruct (mapM_nth _ _ _ _ _ Em Hq) as (mk & Hk & Hrm).
  exists eq, mk.
  split; [exact Hq|]. split; [exact Hk|].
  split; [apply renderItem_key; exact Hri|].
  split; [apply renderMarker_key; exact Hrm|].
  unfold renderItem in Hri. unfold renderMarker in Hrm.
  destruct (coordinates eq) as [lo la].
  destruct (toFixed (mag (props eq))) as [t|e]; simpl in Hri, Hrm;
    [|discriminate].
  injection Hri as <-. injection Hrm as <-. split; reflexivity.
Qed.

Lemma entry_and_marker_correspond_witness :
  exists (eq : feature) (mk : marker),
    nth_error (sort byTime sampleFeed) 1 = Some eq /\
    position mk = (38 # 1, 142 # 1)%Q.
Proof.
  destruct (entry_and_marker_correspond Components
              (fetchEarthquakes_settle Components (success sampleFeed)
                 initialState)
              _ _ _ _ 1%nat _ eq_refl eq_refl)
    as (eq & mk & Hq & _ & _ & _ & Hp & _).
  exists eq, mk. split; [exact Hq|exact Hp].
Defined.

(** ** The kinds of failure *)

(** X19: every failure looks the same afterwards: a rejected request,
    a response that is not ok, a body that does not decode and a document
    without [features] leave the component in the very same state, with
    the one fixed message. *)
Theorem failures_are_indistinguishable :
  forall (v : variant) (r1 r2 : response) (st : state),
    failed r1 -> failed r2 ->
    fetchEarthquakes_settle v r1 st = fetchEarthquakes_settle v r2 st /\
    render v (fetchEarthquakes_settle v r1 st)
    = Ok (ErrorView (failureMessage v)).
Proof.
  intros v r1 r2 st H1 H2.
  rewrite (settle_failed v r1 st H1), (settle_failed v r2 st H2).
  split; [reflexivity|].
  apply render_failed; reflexivity.
Qed.

Lemma failures_are_indistinguishable_witness :
  fetchEarthquakes_settle Plain Rejected initialState
  = fetchEarthquakes_settle Plain (Response true None) initialState.
Proof.
  exact (proj1 (failures_are_indistinguishable Plain Rejected
                  (Response true None) initialState
                  failed_transport failed_decode)).
Defined.
